(** * Point-in-time recovery of a versioned OSS prefix

    A shallow embedding of [main.py]: the planner [get_object_versions]
    (paginated listing and per-key selection), the two apply phases
    [restore_latest_versions] and [delete_newer_versions], and the
    orchestrator [recover_objects], followed by the properties of the
    recovery plan and of the calls issued to the storage service. *)

From stdpp Require Import base option list gmap strings.
From Stdlib Require Import ZArith Lia.

(** ** Data model *)

(** One entry of [result.versions], as [oss2] returns it.  [last_modified]
    is the Unix timestamp of the version, in seconds. *)
Record ObjectVersion := mkObjectVersion {
  key : string;
  versionid : string;
  last_modified : Z
}.

(** One page returned by [bucket.list_object_versions]. *)
Record ListResult := mkListResult {
  versions : list ObjectVersion;
  is_truncated : bool;
  next_key_marker : string;
  next_versionid_marker : string
}.

(** The value stored under a key of [latest_versions]: the dict with the
    entries ['versionid'], ['version_time'] and ['last_modified_str']. *)
Record VersionInfo := mkVersionInfo {
  vi_versionid : string;
  vi_version_time : Z;
  vi_last_modified_str : Z
}.

(** [datetime.datetime.fromtimestamp(ts, datetime.timezone.utc)]: an aware
    UTC datetime is represented by its instant, in seconds since the epoch;
    comparing two of them compares the instants. *)
Definition fromtimestamp (ts : Z) : Z := ts.

(** *** Python dicts

    A [dict] iterates in insertion order and assigning to a key that is
    present keeps its position, so [latest_versions] is an association list
    with at most one pair per key. *)
Section Dict.
Context {V : Type}.

Fixpoint dict_get (d : list (string * V)) (k : string) : option V :=
  match d with
  | [] => None
  | (k', v) :: d' => if decide (k' = k) then Some v else dict_get d' k
  end.

Fixpoint dict_set (d : list (string * V)) (k : string) (v : V)
  : list (string * V) :=
  match d with
  | [] => [(k, v)]
  | (k', v') :: d' =>
      if decide (k' = k) then (k', v) :: d' else (k', v') :: dict_set d' k v
  end.
End Dict.

(** ** Effects

    The functions of [main.py] talk to two collaborators: the logger and the
    bucket.  A computation takes the state of the storage service and gives
    back an outcome, the new state of the service and the events it issued,
    oldest first; [None] is a loop that does not come back within its fuel. *)

Inductive outcome (E A : Type) : Type :=
  | Return (a : A)
  | Raise (e : E).
Arguments Return {E A} a.
Arguments Raise {E A} e.

Inductive Level := DEBUG | INFO | ERROR.

(** The arguments a logging call receives next to its format string. *)
Inductive LogArg (E : Type) : Type :=
  | AStr (s : string)
  | AInt (n : Z)
  | ATime (t : Z)
  | AExn (e : E).
Arguments AStr {E} s.
Arguments AInt {E} n.
Arguments ATime {E} t.
Arguments AExn {E} e.

(** What the outside world sees: each logging call with its level, format
    and arguments ([LogExcInfo] is a call with [exc_info=True] while [e] is
    being handled), and each request to the bucket with its answer. *)
Inductive Event (E : Type) : Type :=
  | Log (lvl : Level) (msg : string) (args : list (LogArg E))
  | LogExcInfo (lvl : Level) (msg : string) (e : E)
  | ListObjectVersions (prefix key_marker versionid_marker : string)
      (max_keys : Z) (r : outcome E ListResult)
  | CopyObject (source_bucket_name source_key target_key versionId : string)
      (r : outcome E unit)
  | DeleteObject (k : string) (r : outcome E unit).
Arguments Log {E} lvl msg args.
Arguments LogExcInfo {E} lvl msg e.
Arguments ListObjectVersions {E} prefix key_marker versionid_marker max_keys r.
Arguments CopyObject {E} source_bucket_name source_key target_key versionId r.
Arguments DeleteObject {E} k r.

(** The part of [oss2.Bucket] the program uses.  [St] is the state of the
    storage service, which every request may read and change; an answer is
    a value or an exception of type [E] (a Python [Exception]). *)
Record Bucket (E St : Type) := mkBucket {
  bucket_name : string;
  list_object_versions :
    string → string → string → Z → St → outcome E ListResult * St;
  copy_object : string → string → string → string → St → outcome E unit * St;
  delete_object : string → St → outcome E unit * St
}.
Arguments bucket_name {E St} b.
Arguments list_object_versions {E St} b prefix key_marker versionid_marker max_keys s.
Arguments copy_object {E St} b source_bucket_name source_key target_key versionId s.
Arguments delete_object {E St} b k s.

Definition M (E St A : Type) : Type :=
  St → option (outcome E A * St * list (Event E)).

Section Monad.
Context {E St : Type}.

#[global] Instance M_ret : MRet (M E St) :=
  λ A a s, Some (Return a, s, []).

#[global] Instance M_bind : MBind (M E St) :=
  λ A B f m s,
       match m s with
       | None => None
       | Some (Raise e, s1, t1) => Some (Raise e, s1, t1)
       | Some (Return a, s1, t1) =>
           match f a s1 with
           | None => None
           | Some (r, s2, t2) => Some (r, s2, t1 ++ t2)
           end
       end.

(** [try: m except Exception as e: h e] *)
Definition try_except {A} (m : M E St A) (h : E → M E St A) : M E St A :=
  λ s, match m s with
       | Some (Raise e, s1, t1) =>
           match h e s1 with
           | None => None
           | Some (r, s2, t2) => Some (r, s2, t1 ++ t2)
           end
       | other => other
       end.

Definition diverge {A} : M E St A := λ _, None.

Definition log (lvl : Level) (msg : string) (args : list (LogArg E))
  : M E St unit :=
  λ s, Some (Return tt, s, [Log lvl msg args]).

Definition log_exc_info (lvl : Level) (msg : string) (e : E) : M E St unit :=
  λ s, Some (Return tt, s, [LogExcInfo lvl msg e]).

(** A request to the bucket: the answer is recorded in the event. *)
Definition request {A} (f : St → outcome E A * St)
    (ev : outcome E A → Event E) : M E St A :=
  λ s, let '(r, s1) := f s in Some (r, s1, [ev r]).

(** [for x in xs: body x] *)
Fixpoint for_each {A} (xs : list A) (body : A → M E St unit) : M E St unit :=
  match xs with
  | [] => mret tt
  | x :: xs' => body x ;; for_each xs' body
  end.

(** [for x in xs: body x], where the body updates local variables [B]. *)
Fixpoint for_fold {A B} (xs : list A) (body : A → B → M E St B) (b : B)
  : M E St B :=
  match xs with
  | [] => mret b
  | x :: xs' => b' ← body x b; for_fold xs' body b'
  end.
End Monad.

(** ** The program *)

Section Program.
Context {E St : Type}.
(** [t.strftime('%Y-%m-%dT%H:%M:%SZ')] and [t.isoformat()] of the
    standard library, on instants. *)
Variable strftime : Z → string.
Variable isoformat : Z → string.

Abbreviation Plan := (list (string * VersionInfo) * gset string)%type.

(** The body of [for obj_version in result.versions]. *)
Definition process_version (recovery_time : Z) (obj_version : ObjectVersion)
    (st : Plan) : M E St Plan :=
  let '(latest_versions, keys_without_older_versions) := st in
  let key := key obj_version in
  let version_time := fromtimestamp (last_modified obj_version) in
  log DEBUG "Processing version for key: %s, version time: %s"
    [AStr key; ATime version_time] ;;
  if bool_decide (version_time ≤ recovery_time)%Z then
    latest_versions ←
      (if match dict_get latest_versions key with
          | None => true
          | Some info => bool_decide (version_time > vi_version_time info)%Z
          end
       then
         log DEBUG "Updating latest version for key: %s" [AStr key] ;;
         mret (dict_set latest_versions key
                {| vi_versionid := versionid obj_version;
                   vi_version_time := version_time;
                   vi_last_modified_str := last_modified obj_version |})
       else mret latest_versions) ;
    mret (latest_versions, keys_without_older_versions ∖ {[key]})
  else if bool_decide (dict_get latest_versions key = None) then
    log DEBUG "Adding key to keys_without_older_versions: %s" [AStr key] ;;
    mret (latest_versions, keys_without_older_versions ∪ {[key]})
  else mret (latest_versions, keys_without_older_versions).

(** The [while True] loop, entered with the current values of
    [latest_versions], [keys_without_older_versions], [next_key_marker]
    and [next_versionid_marker]; [fuel] bounds the number of pages
    requested. *)
Fixpoint list_pages (fuel : nat) (bucket : Bucket E St) (prefix : string)
    (recovery_time : Z) (st : Plan)
    (key_marker versionid_marker : string) : M E St Plan :=
  match fuel with
  | O => diverge
  | S fuel' =>
      log DEBUG "Listing object versions with key_marker: %s, versionid_marker: %s"
        [AStr key_marker; AStr versionid_marker] ;;
      result ← request
        (list_object_versions bucket prefix key_marker versionid_marker 999)
        (ListObjectVersions prefix key_marker versionid_marker 999) ;
      st ← for_fold (versions result) (process_version recovery_time) st ;
      if negb (is_truncated result) then mret st
      else list_pages fuel' bucket prefix recovery_time st
             (next_key_marker result) (next_versionid_marker result)
  end.

Definition get_object_versions (fuel : nat) (bucket : Bucket E St)
    (prefix : string) (recovery_time : Z) : M E St Plan :=
  log DEBUG "Starting to get object versions for prefix: %s" [AStr prefix] ;;
  st ← list_pages fuel bucket prefix recovery_time ([], ∅) "" "" ;
  log DEBUG "Finished getting object versions. Found %d latest versions and %d keys without older versions"
    [AInt (Z.of_nat (length st.1)); AInt (Z.of_nat (size st.2))] ;;
  mret st.

Definition restore_latest_versions (bucket : Bucket E St)
    (latest_versions : list (string * VersionInfo)) (dry_run : bool)
  : M E St unit :=
  log DEBUG "Starting to restore latest versions for %d objects"
    [AInt (Z.of_nat (length latest_versions))] ;;
  for_each latest_versions (λ '(key, version_info),
    let versionid := vi_versionid version_info in
    let version_time_str := strftime (vi_version_time version_info) in
    let action := "Restoring '" +:+ key +:+ "' to version '" +:+ versionid
                  +:+ "' modified at " +:+ version_time_str in
    if dry_run then log INFO "[Dry Run] Would %s" [AStr action]
    else
      try_except
        (log INFO action [] ;;
         log DEBUG "Copying object: bucket=%s, key=%s, versionId=%s"
           [AStr (bucket_name bucket); AStr key; AStr versionid] ;;
         request (copy_object bucket (bucket_name bucket) key key versionid)
           (CopyObject (bucket_name bucket) key key versionid) ;;
         log DEBUG "Successfully restored object: %s" [AStr key])
        (λ e,
         log ERROR "Error restoring '%s' version '%s': %s"
           [AStr key; AStr versionid; AExn e] ;;
         log_exc_info DEBUG "Exception details:" e)).

(** A Python [set] iterates in an order the language leaves open;
    [elements] is one such order, without repetition. *)
Definition delete_newer_versions (bucket : Bucket E St)
    (keys_without_older_versions : gset string) (dry_run : bool)
  : M E St unit :=
  log DEBUG "Starting to delete %d newer versions"
    [AInt (Z.of_nat (size keys_without_older_versions))] ;;
  for_each (elements keys_without_older_versions) (λ key,
    let action := "Deleting '" +:+ key +:+ "'" in
    if dry_run then log INFO "[Dry Run] Would %s" [AStr action]
    else
      try_except
        (log INFO action [] ;;
         log DEBUG "Deleting object: bucket=%s, key=%s"
           [AStr (bucket_name bucket); AStr key] ;;
         request (delete_object bucket key) (DeleteObject key) ;;
         log DEBUG "Successfully deleted object: %s" [AStr key])
        (λ e,
         log ERROR "Error deleting '%s': %s" [AStr key; AExn e] ;;
         log_exc_info DEBUG "Exception details:" e)).

(** [dry_run] and [delete_newer] are keyword parameters with the default
    [False]: [None] is a call that leaves the parameter out. *)
Definition recover_objects (fuel : nat) (bucket : Bucket E St)
    (prefix : string) (recovery_time : Z)
    (dry_run delete_newer : option bool) : M E St unit :=
  let dry_run := default false dry_run in
  let delete_newer := default false delete_newer in
  log INFO "Starting recovery process for prefix '%s' up to time %sZ"
    [AStr prefix; AStr (isoformat recovery_time)] ;;
  '(latest_versions, keys_without_older_versions) ←
    get_object_versions fuel bucket prefix recovery_time ;
  restore_latest_versions bucket latest_versions dry_run ;;
  (if delete_newer
   then delete_newer_versions bucket keys_without_older_versions dry_run
   else mret tt) ;;
  log INFO "Recovery process completed." [].
End Program.

(** ** A mock bucket

    As in the unit tests: the service state is the list of pages still to
    be served, a listing request with no page left fails, and the copy or
    the deletion of a key in [fail_keys] fails. *)

Definition mock_bucket (fail_keys : list string)
  : Bucket string (list ListResult) :=
  {| bucket_name := "bucket";
     list_object_versions := λ _ _ _ _ s,
       match s with
       | [] => (Raise "listing failed", [])
       | page :: s' => (Return page, s')
       end;
     copy_object := λ _ k _ _ s,
       (if bool_decide (k ∈ fail_keys) then Raise "copy failed" else Return tt, s);
     delete_object := λ k s,
       (if bool_decide (k ∈ fail_keys) then Raise "delete failed" else Return tt, s)
  |}.

Definition test_page : ListResult :=
  {| versions :=
       [ mkObjectVersion "object1" "v1" 1633615200;
         mkObjectVersion "object1" "v2" 1633620300;
         mkObjectVersion "object1" "v3" 1633622400;
         mkObjectVersion "object2" "v1" 1633619700;
         mkObjectVersion "object2" "v2" 1633622400;
         mkObjectVersion "object3" "v1" 1633622400 ];
     is_truncated := false;
     next_key_marker := "";
     next_versionid_marker := "" |}.


(** ** The plan as a fold

    The state transformer of one iteration of the loop over
    [result.versions] (what [process_version] does to [latest_versions] and
    [keys_without_older_versions], its logging left out), and the loop as a
    left fold of it.  [process_version_run] and [for_fold_run] below show
    that the loop of the program computes exactly this. *)

Definition time_of (v : ObjectVersion) : Z := fromtimestamp (last_modified v).

Definition info_of (v : ObjectVersion) : VersionInfo :=
  {| vi_versionid := versionid v;
     vi_version_time := fromtimestamp (last_modified v);
     vi_last_modified_str := last_modified v |}.

Definition plan_step (recovery_time : Z)
    (st : list (string * VersionInfo) * gset string) (v : ObjectVersion)
  : list (string * VersionInfo) * gset string :=
  let '(lv, orphans) := st in
  let t := fromtimestamp (last_modified v) in
  if bool_decide (t ≤ recovery_time)%Z then
    (if match dict_get lv (key v) with
        | None => true
        | Some info => bool_decide (t > vi_version_time info)%Z
        end
     then dict_set lv (key v) (info_of v) else lv,
     orphans ∖ {[key v]})
  else if bool_decide (dict_get lv (key v) = None)
       then (lv, orphans ∪ {[key v]})
       else (lv, orphans).

Definition scan (recovery_time : Z) (vs : list ObjectVersion)
    (st : list (string * VersionInfo) * gset string)
  : list (string * VersionInfo) * gset string :=
  foldl (plan_step recovery_time) st vs.

(** The greatest modification time at or before the cutoff among the
    records of key [k], if there is one: the time the plan is meant to
    record for [k]. *)
Definition max_time_at_or_before (recovery_time : Z) (k : string)
    (vs : list ObjectVersion) : option Z :=
  foldr (λ v acc,
           if bool_decide (key v = k ∧ (time_of v ≤ recovery_time)%Z)
           then Some (from_option (Z.max (time_of v)) (time_of v) acc)
           else acc)
        None vs.

(** ** Reading a trace *)

Section Trace.
Context {E : Type}.

Definition is_log (ev : Event E) : Prop :=
  match ev with Log _ _ _ | LogExcInfo _ _ _ => True | _ => False end.

(** The version records a trace has seen: the entries of every page that
    was returned, in arrival order. *)
Definition event_versions (ev : Event E) : list ObjectVersion :=
  match ev with
  | ListObjectVersions _ _ _ _ (Return r) => versions r
  | _ => []
  end.
Definition observed_versions (tr : list (Event E)) : list ObjectVersion :=
  tr ≫= event_versions.

Definition list_request (ev : Event E)
  : option (string * string * string * Z * outcome E ListResult) :=
  match ev with
  | ListObjectVersions p km vm mk r => Some (p, km, vm, mk, r)
  | _ => None
  end.
Definition list_requests (tr : list (Event E)) := omap list_request tr.

Definition copy_request (ev : Event E)
  : option (string * string * string * string) :=
  match ev with
  | CopyObject b k k' v _ => Some (b, k, k', v)
  | _ => None
  end.
Definition copy_requests (tr : list (Event E)) := omap copy_request tr.

Definition delete_request (ev : Event E) : option string :=
  match ev with DeleteObject k _ => Some k | _ => None end.
Definition delete_requests (tr : list (Event E)) := omap delete_request tr.

(** The [logger.info] calls of a trace: format and arguments. *)
Definition info_line (ev : Event E) : option (string * list (LogArg E)) :=
  match ev with
  | Log INFO msg args => Some (msg, args)
  | _ => None
  end.
Definition info_lines (tr : list (Event E)) := omap info_line tr.

(** A well-formed pagination: every request asks for at most 999 entries
    under the same prefix, each one carries the markers of the page
    before, every page but the last is truncated and the last is not. *)
Inductive paginated (prefix : string)
  : string → string →
    list (string * string * string * Z * outcome E ListResult) → Prop :=
  | paginated_last km vm r :
      is_truncated r = false →
      paginated prefix km vm [(prefix, km, vm, 999%Z, Return r)]
  | paginated_more km vm r rest :
      is_truncated r = true →
      paginated prefix (next_key_marker r) (next_versionid_marker r) rest →
      paginated prefix km vm ((prefix, km, vm, 999%Z, Return r) :: rest).
End Trace.

Arguments observed_versions : simpl never.
Arguments list_requests : simpl never.
Arguments copy_requests : simpl never.
Arguments delete_requests : simpl never.
Arguments info_lines : simpl never.

(** ** What each phase is expected to do for one entry *)

(** The [action] strings of the two phases. *)
Definition restore_action (strftime : Z → string) (key : string)
    (version_info : VersionInfo) : string :=
  "Restoring '" +:+ key +:+ "' to version '" +:+ vi_versionid version_info
  +:+ "' modified at " +:+ strftime (vi_version_time version_info).

Definition delete_action (key : string) : string := "Deleting '" +:+ key +:+ "'".

(** The copy of a key onto itself, pinned to the planned version. *)
Definition copy_of {E St} (bucket : Bucket E St)
    (item : string * VersionInfo) : string * string * string * string :=
  (bucket_name bucket, item.1, item.1, vi_versionid item.2).

(** The events of one iteration of [restore_latest_versions] outside a dry
    run, given the answer [r] of the service. *)
Definition restore_events {E St} (strftime : Z → string) (bucket : Bucket E St)
    (item : string * VersionInfo) (r : outcome E unit) : list (Event E) :=
  [ Log INFO (restore_action strftime item.1 item.2) [];
    Log DEBUG "Copying object: bucket=%s, key=%s, versionId=%s"
      [AStr (bucket_name bucket); AStr item.1; AStr (vi_versionid item.2)];
    CopyObject (bucket_name bucket) item.1 item.1 (vi_versionid item.2) r ]
  ++ match r with
     | Return _ => [Log DEBUG "Successfully restored object: %s" [AStr item.1]]
     | Raise e =>
         [ Log ERROR "Error restoring '%s' version '%s': %s"
             [AStr item.1; AStr (vi_versionid item.2); AExn e];
           LogExcInfo DEBUG "Exception details:" e ]
     end.

(** The same for [delete_newer_versions]. *)
Definition delete_events {E St} (bucket : Bucket E St) (key : string)
    (r : outcome E unit) : list (Event E) :=
  [ Log INFO (delete_action key) [];
    Log DEBUG "Deleting object: bucket=%s, key=%s"
      [AStr (bucket_name bucket); AStr key];
    DeleteObject key r ]
  ++ match r with
     | Return _ => [Log DEBUG "Successfully deleted object: %s" [AStr key]]
     | Raise e =>
         [ Log ERROR "Error deleting '%s': %s" [AStr key; AExn e];
           LogExcInfo DEBUG "Exception details:" e ]
     end.

(** The answer to the [n]-th request (from 0) of a listing that starts at
    the markers [km], [vm] in the service state [s] and threads the markers
    of each page into the next request. *)
Fixpoint nth_response {E St} (bucket : Bucket E St) (prefix : string)
    (n : nat) (km vm : string) (s : St) : outcome E ListResult :=
  let '(r, s1) := list_object_versions bucket prefix km vm 999 s in
  match n with
  | O => r
  | S n' =>
      match r with
      | Return res =>
          nth_response bucket prefix n' (next_key_marker res)
            (next_versionid_marker res) s1
      | Raise e => Raise e
      end
  end.

(** ** Test data

    The listing of the unit test: one page, not truncated, and the four
    cutoffs the test uses; a listing in two pages; a listing with two
    versions of one key at the same instant. *)

Definition test_run (recovery_time : Z) :=
  get_object_versions (E:=string) 1 (mock_bucket []) "prefix/" recovery_time
    [test_page].

Definition test_trace : list (Event string) :=
  Eval vm_compute in
    match test_run 1633620600 with Some (_, _, tr) => tr | None => [] end.

Definition test_latest_versions : list (string * VersionInfo) :=
  [ ("object1", mkVersionInfo "v2" 1633620300 1633620300);
    ("object2", mkVersionInfo "v1" 1633619700 1633619700) ].

Definition test_keys_without_older_versions : gset string := {["object3"]}.

Definition first_page : ListResult :=
  {| versions := [ mkObjectVersion "a" "v2" 20; mkObjectVersion "b" "v1" 30 ];
     is_truncated := true;
     next_key_marker := "b";
     next_versionid_marker := "v1" |}.

Definition last_page : ListResult :=
  {| versions := [ mkObjectVersion "a" "v1" 5 ];
     is_truncated := false;
     next_key_marker := "";
     next_versionid_marker := "" |}.

Definition two_pages : list ListResult := [first_page; last_page].

(** A listing whose second request fails. *)
Definition broken_trace : list (Event string) :=
  Eval vm_compute in
    match get_object_versions (E:=string) 2 (mock_bucket []) "p/" 10 [first_page]
    with Some (_, _, tr) => tr | None => [] end.

(** The plan of the unit test at the cutoff 14:00. *)
Definition test_trace_1400 : list (Event string) :=
  Eval vm_compute in
    match test_run 1633615200 with Some (_, _, tr) => tr | None => [] end.

Definition test_latest_versions_1400 : list (string * VersionInfo) :=
  [ ("object1", mkVersionInfo "v1" 1633615200 1633615200) ].

Definition test_keys_without_older_versions_1400 : gset string :=
  {["object2"; "object3"]}.

Definition two_pages_trace : list (Event string) :=
  Eval vm_compute in
    match get_object_versions (E:=string) 2 (mock_bucket []) "p/" 10 two_pages
    with Some (_, _, tr) => tr | None => [] end.

Definition tie_first : ObjectVersion := mkObjectVersion "k" "v1" 5.
Definition tie_second : ObjectVersion := mkObjectVersion "k" "v2" 5.

Definition tie_page : ListResult :=
  {| versions := [tie_first; tie_second];
     is_truncated := false;
     next_key_marker := "";
     next_versionid_marker := "" |}.

Definition tie_trace : list (Event string) :=
  Eval vm_compute in
    match get_object_versions (E:=string) 1 (mock_bucket []) "p/" 10 [tie_page]
    with Some (_, _, tr) => tr | None => [] end.

Definition tie_latest_versions : list (string * VersionInfo) :=
  [ ("k", mkVersionInfo "v1" 5 5) ].

Definition test_object1_v1 : ObjectVersion :=
  mkObjectVersion "object1" "v1" 1633615200.

(** A scan cut in two: the records seen so far and the ones that follow. *)
Definition seen_so_far : list ObjectVersion := [ mkObjectVersion "a" "v1" 5 ].
Definition still_to_come : list ObjectVersion :=
  [ mkObjectVersion "a" "v2" 20; mkObjectVersion "a" "v0" 3;
    mkObjectVersion "a" "v3" 7 ].

Definition seen_so_far_trace : list (Event string) :=
  Eval vm_compute in
    match for_fold (St:=unit) seen_so_far (process_version 10) ([], ∅) tt
    with Some (_, _, tr) => tr | None => [] end.

Definition still_to_come_trace : list (Event string) :=
  Eval vm_compute in
    match for_fold (St:=unit) still_to_come (process_version 10)
            ([("a", mkVersionInfo "v1" 5 5)], ∅) tt
    with Some (_, _, tr) => tr | None => [] end.

Definition mock_strftime (t : Z) : string := "T".
Definition mock_isoformat (t : Z) : string := "I".

(** Last-write-wins on equal times, as a statement about the program: of two
    records of one key with the same time at or before the cutoff, the one
    that arrives later is the one recorded. *)
Definition last_write_wins : Prop :=
  ∀ (fuel : nat) (bucket : Bucket string (list ListResult)) prefix c s
    lv orphans s' tr l1 v1 l2 v2 l3,
    get_object_versions fuel bucket prefix c s
    = Some (Return (lv, orphans), s', tr) →
    observed_versions tr = l1 ++ v1 :: l2 ++ v2 :: l3 →
    key v1 = key v2 → time_of v1 = time_of v2 → (time_of v2 ≤ c)%Z →
    dict_get lv (key v2) = Some (info_of v2).

(** ** More test data *)

Definition test_trace_1300 : list (Event string) :=
  Eval vm_compute in
    match test_run 1633611600 with Some (_, _, tr) => tr | None => [] end.

Definition test_trace_1700 : list (Event string) :=
  Eval vm_compute in
    match test_run 1633626000 with Some (_, _, tr) => tr | None => [] end.

Definition test_latest_versions_1700 : list (string * VersionInfo) :=
  [ ("object1", mkVersionInfo "v3" 1633622400 1633622400);
    ("object2", mkVersionInfo "v2" 1633622400 1633622400);
    ("object3", mkVersionInfo "v1" 1633622400 1633622400) ].

(** The page of the unit test, its records in the opposite order. *)
Definition test_page_reversed : ListResult :=
  {| versions := reverse (versions test_page);
     is_truncated := false;
     next_key_marker := "";
     next_versionid_marker := "" |}.

Definition test_trace_reversed : list (Event string) :=
  Eval vm_compute in
    match get_object_versions (E:=string) 1 (mock_bucket []) "prefix/"
            1633620600 [test_page_reversed]
    with Some (_, _, tr) => tr | None => [] end.

Definition test_latest_versions_reversed : list (string * VersionInfo) :=
  [ ("object2", mkVersionInfo "v1" 1633619700 1633619700);
    ("object1", mkVersionInfo "v2" 1633620300 1633620300) ].

(** The records of [two_pages] on one page, and the same with the first
    record delivered once more at the end. *)
Definition one_page : ListResult :=
  {| versions := versions first_page ++ versions last_page;
     is_truncated := false;
     next_key_marker := "";
     next_versionid_marker := "" |}.

Definition one_page_trace : list (Event string) :=
  Eval vm_compute in
    match get_object_versions (E:=string) 1 (mock_bucket []) "p/" 10 [one_page]
    with Some (_, _, tr) => tr | None => [] end.

Definition redelivered_page : ListResult :=
  {| versions := versions first_page ++ versions last_page
                 ++ [mkObjectVersion "a" "v2" 20];
     is_truncated := false;
     next_key_marker := "";
     next_versionid_marker := "" |}.

Definition redelivered_trace : list (Event string) :=
  Eval vm_compute in
    match get_object_versions (E:=string) 1 (mock_bucket []) "p/" 10
            [redelivered_page]
    with Some (_, _, tr) => tr | None => [] end.

Definition two_pages_latest_versions : list (string * VersionInfo) :=
  [ ("a", mkVersionInfo "v1" 5 5) ].

(** A full recovery and a dry run on the page of the unit test. *)
Definition full_recovery_trace : list (Event string) :=
  Eval vm_compute in
    match recover_objects mock_strftime mock_isoformat 1 (mock_bucket [])
            "prefix/" 1633615200 (Some false) (Some true) [test_page]
    with Some (_, _, tr) => tr | None => [] end.

Definition dry_recovery_trace : list (Event string) :=
  Eval vm_compute in
    match recover_objects mock_strftime mock_isoformat 1 (mock_bucket [])
            "prefix/" 1633615200 (Some true) (Some true) [test_page]
    with Some (_, _, tr) => tr | None => [] end.

Arguments restore_events : simpl never.
Arguments delete_events : simpl never.

(** The events of one iteration, for some answer of the service. *)
Definition restored {E St} (strftime : Z → string) (bucket : Bucket E St)
    (item : string * VersionInfo) (t : list (Event E)) : Prop :=
  ∃ r, t = restore_events strftime bucket item r.

Definition deleted {E St} (bucket : Bucket E St) (k : string)
    (t : list (Event E)) : Prop :=
  ∃ r, t = delete_events bucket k r.

(** A listing request the service answered with a page. *)
Definition answered {E}
    (q : string * string * string * Z * outcome E ListResult) : Prop :=
  ∃ r, q.2 = Return r.

(** ** The script: arguments, recovery time, [main] *)

(** The namespace [parse_arguments] returns: one attribute per option. *)
Record Namespace := mkNamespace {
  arg_access_key_id : string;
  arg_access_key_secret : string;
  arg_endpoint : string;
  arg_bucket_name : string;
  arg_folder_prefix : string;
  arg_recovery_time : string;
  arg_dry_run : bool;
  arg_delete_newer_objects : bool;
  arg_debug : bool
}.

(** What can end the script: [sys.exit(code)], the [ValueError] of
    [strptime], or an exception [e] of the storage service. *)
Inductive ProcExn (E : Type) : Type :=
  | SystemExit (code : Z)
  | ValueError
  | Uncaught (e : E).
Arguments SystemExit {E} code.
Arguments ValueError {E}.
Arguments Uncaught {E} e.

Definition is_ValueError {E} (e : ProcExn E) : bool :=
  match e with ValueError => true | _ => false end.

(** The state of the [logging] module the script sets up: the level and
    format of the root handler, once [basicConfig] has installed one, and
    the level of the logger of the module. *)
Record Logging := mkLogging {
  root_config : option (Level * string);
  logger_level : option Level
}.

(** The bucket as the script sees it: its exceptions are exceptions of the
    process, and it leaves the logging configuration alone. *)
Definition lift_outcome {E A} (r : outcome E A) : outcome (ProcExn E) A :=
  match r with Return a => Return a | Raise e => Raise (Uncaught e) end.

Definition process_bucket {E St} (b : Bucket E St)
  : Bucket (ProcExn E) (Logging * St) :=
  {| bucket_name := bucket_name b;
     list_object_versions := λ p km vm mk st,
       let '(r, s') := list_object_versions b p km vm mk st.2 in
       (lift_outcome r, (st.1, s'));
     copy_object := λ sb sk tk vid st,
       let '(r, s') := copy_object b sb sk tk vid st.2 in
       (lift_outcome r, (st.1, s'));
     delete_object := λ k st,
       let '(r, s') := delete_object b k st.2 in
       (lift_outcome r, (st.1, s')) |}.

Section Script.
Context {E St Naive Auth : Type}.
(** The library calls of the script: what [argparse] makes of the command
    line, [datetime.datetime.strptime(_, '%Y-%m-%dT%H:%M:%SZ')] (a naive
    datetime or an exception), [.replace(tzinfo=datetime.timezone.utc)],
    [str(vars(args))], and the constructors of [oss2]. *)
Variable argparse_result : outcome (ProcExn E) Namespace.
Variable strptime : string → outcome (ProcExn E) Naive.
Variable replace_tzinfo_utc : Naive → Z.
Variable str_vars : Namespace → string.
Variable oss2_Auth : string → string → Auth.
Variable oss2_Bucket : Auth → string → string → Bucket E St.
Variables strftime isoformat : Z → string.

Definition raise_exn {S A} (e : ProcExn E) : M (ProcExn E) S A :=
  λ s, Some (Raise e, s, []).

(** A library call that has no effect of its own. *)
Definition library {S A} (r : outcome (ProcExn E) A) : M (ProcExn E) S A :=
  λ s, Some (r, s, []).

(** [try: m except <class>: h], for the class [catches]. *)
Definition try_except_class {S A} (catches : ProcExn E → bool)
    (m h : M (ProcExn E) S A) : M (ProcExn E) S A :=
  λ s, match m s with
       | Some (Raise e, s1, t1) =>
           if catches e then
             match h s1 with
             | None => None
             | Some (r, s2, t2) => Some (r, s2, t1 ++ t2)
             end
           else Some (Raise e, s1, t1)
       | other => other
       end.

(** [logging.basicConfig(level=..., format=...)]: does nothing when the
    root logger already has a handler. *)
Definition basicConfig (level : Level) (format : string)
  : M (ProcExn E) (Logging * St) unit :=
  λ st, Some (Return tt,
              (match root_config st.1 with
               | Some _ => st.1
               | None => {| root_config := Some (level, format);
                            logger_level := logger_level st.1 |}
               end, st.2), []).

(** [logger.setLevel(level)] *)
Definition setLevel (level : Level) : M (ProcExn E) (Logging * St) unit :=
  λ st, Some (Return tt,
              ({| root_config := root_config st.1;
                  logger_level := Some level |}, st.2), []).

Definition parse_arguments : M (ProcExn E) (Logging * St) Namespace :=
  library argparse_result.

Definition parse_recovery_time (recovery_time_str : string)
  : M (ProcExn E) (Logging * St) Z :=
  try_except_class is_ValueError
    (recovery_time ← library (strptime recovery_time_str) ;
     mret (replace_tzinfo_utc recovery_time))
    (log ERROR "Invalid recovery time format. Use UTC time in format: YYYY-MM-DDTHH:MM:SSZ" [] ;;
     raise_exn (SystemExit 1)).

Definition initialize_oss_client
    (access_key_id access_key_secret endpoint bucket_name : string)
  : Bucket E St :=
  let auth := oss2_Auth access_key_id access_key_secret in
  oss2_Bucket auth endpoint bucket_name.

Definition main (fuel : nat) : M (ProcExn E) (Logging * St) unit :=
  args ← parse_arguments ;
  let log_level := if arg_debug args then DEBUG else INFO in
  basicConfig log_level "%(asctime)s - %(levelname)s - %(message)s" ;;
  setLevel log_level ;;
  log DEBUG "Arguments parsed: %s" [AStr (str_vars args)] ;;
  recovery_time ← parse_recovery_time (arg_recovery_time args) ;
  log DEBUG "Parsed recovery time: %s" [ATime recovery_time] ;;
  let bucket :=
    initialize_oss_client (arg_access_key_id args) (arg_access_key_secret args)
      (arg_endpoint args) (arg_bucket_name args) in
  log DEBUG "OSS client initialized for bucket: %s"
    [AStr (arg_bucket_name args)] ;;
  recover_objects strftime isoformat fuel (process_bucket bucket)
    (arg_folder_prefix args) recovery_time
    (Some (arg_dry_run args)) (Some (arg_delete_newer_objects args)).
End Script.

(** The script on mock libraries: one recovery time parses. *)
Definition mock_strptime (s : string) : outcome (ProcExn string) Z :=
  if decide (s = "2021-10-07T15:30:00Z") then Return 1633620600%Z
  else Raise ValueError.

Definition mock_args (recovery_time : string) : Namespace :=
  {| arg_access_key_id := "id";
     arg_access_key_secret := "secret";
     arg_endpoint := "oss-region.aliyuncs.com";
     arg_bucket_name := "bucket";
     arg_folder_prefix := "prefix/";
     arg_recovery_time := recovery_time;
     arg_dry_run := true;
     arg_delete_newer_objects := false;
     arg_debug := false |}.

Definition mock_main (recovery_time : string) :=
  main (E:=string) (Return (mock_args recovery_time)) mock_strptime id
    (λ _, "args") (λ _ _, tt) (λ _ _ _, mock_bucket [])
    mock_strftime mock_isoformat 1 (mkLogging None None, [test_page]).

Definition mock_main_trace : list (Event (ProcExn string)) :=
  Eval vm_compute in
    match mock_main "2021-10-07T15:30:00Z" with
    | Some (_, _, tr) => tr
    | None => []
    end.

Definition mock_logging : Logging :=
  {| root_config := Some (INFO, "%(asctime)s - %(levelname)s - %(message)s");
     logger_level := Some INFO |}.

(** The keys a trace asked to copy. *)
Definition copied_keys {E} (tr : list (Event E)) : list string :=
  (λ q, q.1.1.2) <$> copy_requests tr.

(** A listing request under [prefix], for at most 999 entries. *)
Definition request_under {E} (prefix : string)
    (q : string * string * string * Z * outcome E ListResult) : Prop :=
  q.1.1.1.1 = prefix ∧ q.1.2 = 999%Z.

(** ** Dictionary lemmas *)

Section DictLemmas.
Context {V : Type}.
Implicit Types (d : list (string * V)) (k : string) (v : V).

Lemma dict_get_set_eq d k v : dict_get (dict_set d k v) k = Some v.
Proof.
  induction d as [|[k' v'] d IH]; simpl.
  - by rewrite decide_True.
  - destruct (decide (k' = k)) as [->|Hne]; simpl.
    + by rewrite decide_True.
    + by rewrite decide_False.
Qed.

Lemma dict_get_set_ne d k k' v :
  k ≠ k' → dict_get (dict_set d k v) k' = dict_get d k'.
Proof.
  intros Hne. induction d as [|[k0 v0] d IH]; simpl.
  - by rewrite decide_False.
  - destruct (decide (k0 = k)) as [->|Hk]; simpl.
    + by rewrite !decide_False.
    + destruct (decide (k0 = k')); [done | apply IH].
Qed.

Lemma dict_get_Some_elem d k v : dict_get d k = Some v → (k, v) ∈ d.
Proof.
  induction d as [|[k' v'] d IH]; simpl; [done|].
  destruct (decide (k' = k)) as [->|Hk].
  - intros [= ->]. left.
  - intros H. right. by apply IH.
Qed.

Lemma dict_get_None_keys d k : dict_get d k = None ↔ k ∉ d.*1.
Proof.
  induction d as [|[k' v'] d IH]; simpl.
  - split; [intros _; apply not_elem_of_nil | done].
  - destruct (decide (k' = k)) as [->|Hk].
    + split; [done | intros []; left].
    + rewrite IH, not_elem_of_cons; simpl.
      split; [intros Hk'; split; [congruence | done] | by intros [_ Hk']].
Qed.
End DictLemmas.

(** ** Running computations *)

Section Run.
Context {E St : Type}.
Implicit Types (s : St) (tr : list (Event E)).

Lemma bind_run {A B} (m : M E St A) (f : A → M E St B) s :
  (m ≫= f) s =
  match m s with
  | None => None
  | Some (Raise e, s1, t1) => Some (Raise e, s1, t1)
  | Some (Return a, s1, t1) =>
      match f a s1 with
      | None => None
      | Some (r, s2, t2) => Some (r, s2, t1 ++ t2)
      end
  end.
Proof. reflexivity. Qed.

Lemma bind_Return {A B} (m : M E St A) (f : A → M E St B) s a s1 t1 :
  m s = Some (Return a, s1, t1) →
  (m ≫= f) s = '(r, s2, t2) ← f a s1; Some (r, s2, t1 ++ t2).
Proof. intros Hm. rewrite bind_run, Hm. by destruct (f a s1) as [[[??]?]|]. Qed.

Lemma bind_Raise {A B} (m : M E St A) (f : A → M E St B) s e s1 t1 :
  m s = Some (Raise e, s1, t1) → (m ≫= f) s = Some (Raise e, s1, t1).
Proof. intros Hm. by rewrite bind_run, Hm. Qed.

Lemma log_run lvl msg args s :
  log (E:=E) lvl msg args s = Some (Return tt, s, [Log lvl msg args]).
Proof. reflexivity. Qed.

Lemma logs_observed tr : Forall is_log tr → observed_versions tr = [].
Proof.
  induction 1 as [|ev tr Hev _ IH]; [done|].
  unfold observed_versions in *. rewrite bind_cons, IH.
  by destruct ev.
Qed.

Lemma logs_omap {B} (f : Event E → option B) tr :
  (∀ ev, is_log ev → f ev = None) → Forall is_log tr → omap f tr = [].
Proof.
  intros Hf. induction 1 as [|ev tr Hev _ IH]; [done|].
  simpl. by rewrite (Hf ev Hev).
Qed.

Lemma logs_list_requests tr : Forall is_log tr → list_requests tr = [].
Proof. apply logs_omap. by intros []. Qed.

Lemma logs_copy_requests tr : Forall is_log tr → copy_requests tr = [].
Proof. apply logs_omap. by intros []. Qed.

Lemma logs_delete_requests tr : Forall is_log tr → delete_requests tr = [].
Proof. apply logs_omap. by intros []. Qed.

Lemma list_requests_cons ev tr :
  list_requests (ev :: tr)
  = from_option (λ q, [q]) [] (list_request ev) ++ list_requests tr.
Proof. unfold list_requests. simpl. by destruct (list_request ev). Qed.

Lemma copy_requests_cons ev tr :
  copy_requests (ev :: tr)
  = from_option (λ q, [q]) [] (copy_request ev) ++ copy_requests tr.
Proof. unfold copy_requests. simpl. by destruct (copy_request ev). Qed.

Lemma delete_requests_cons ev tr :
  delete_requests (ev :: tr)
  = from_option (λ q, [q]) [] (delete_request ev) ++ delete_requests tr.
Proof. unfold delete_requests. simpl. by destruct (delete_request ev). Qed.

Lemma info_lines_cons ev tr :
  info_lines (ev :: tr)
  = from_option (λ q, [q]) [] (info_line ev) ++ info_lines tr.
Proof. unfold info_lines. simpl. by destruct (info_line ev). Qed.

Lemma info_lines_app tr1 tr2 :
  info_lines (tr1 ++ tr2) = info_lines tr1 ++ info_lines tr2.
Proof. apply omap_app. Qed.

Lemma list_requests_app tr1 tr2 :
  list_requests (tr1 ++ tr2) = list_requests tr1 ++ list_requests tr2.
Proof. apply omap_app. Qed.

Lemma copy_requests_app tr1 tr2 :
  copy_requests (tr1 ++ tr2) = copy_requests tr1 ++ copy_requests tr2.
Proof. apply omap_app. Qed.

Lemma delete_requests_app tr1 tr2 :
  delete_requests (tr1 ++ tr2) = delete_requests tr1 ++ delete_requests tr2.
Proof. apply omap_app. Qed.

Lemma observed_versions_cons ev tr :
  observed_versions (ev :: tr) = event_versions ev ++ observed_versions tr.
Proof. reflexivity. Qed.

Lemma observed_versions_app tr1 tr2 :
  observed_versions (tr1 ++ tr2)
  = observed_versions tr1 ++ observed_versions tr2.
Proof. apply bind_app. Qed.

(** One iteration of the loop over a page always comes back, leaves the
    service alone, only logs, and updates the two locals as [plan_step]. *)
Lemma process_version_run (c : Z) v st s :
  ∃ tr, process_version c v st s = Some (Return (plan_step c st v), s, tr)
        ∧ Forall is_log tr.
Proof.
  destruct st as [lv orphans]. unfold process_version, plan_step.
  rewrite bind_run, log_run.
  destruct (bool_decide (fromtimestamp (last_modified v) ≤ c)%Z).
  - destruct (match dict_get lv (key v) with
              | Some info =>
                  bool_decide (fromtimestamp (last_modified v)
                               > vi_version_time info)%Z
              | None => true
              end); eexists; (split; [reflexivity|]);
      repeat constructor.
  - destruct (bool_decide (dict_get lv (key v) = None));
      eexists; (split; [reflexivity|]); repeat constructor.
Qed.

Lemma for_fold_run (c : Z) vs st s :
  ∃ tr, for_fold vs (process_version c) st s
        = Some (Return (scan c vs st), s, tr)
        ∧ Forall is_log tr.
Proof.
  revert st. induction vs as [|v vs IH]; intros st; simpl.
  - eexists. split; [reflexivity | constructor].
  - destruct (process_version_run c v st s) as (t1 & H1 & Hl1).
    destruct (IH (plan_step c st v)) as (t2 & H2 & Hl2).
    exists (t1 ++ t2). split; [|by apply Forall_app].
    rewrite (bind_Return _ _ _ _ _ _ H1), H2. done.
Qed.
End Run.

(** ** The pagination loop *)

Section Listing.
Context {E St : Type}.
Implicit Types (s : St) (tr : list (Event E)) (bucket : Bucket E St).

Lemma paginated_answered prefix km vm reqs :
  paginated (E:=E) prefix km vm reqs → Forall answered reqs.
Proof.
  induction 1; repeat constructor; try (by eexists); done.
Qed.

Lemma list_pages_spec fuel bucket prefix (c : Z) st km vm s out s' tr :
  list_pages fuel bucket prefix c st km vm s = Some (out, s', tr) →
  copy_requests tr = [] ∧ delete_requests tr = [] ∧
  match out with
  | Return plan =>
      plan = scan c (observed_versions tr) st
      ∧ paginated prefix km vm (list_requests tr)
  | Raise e =>
      ∃ reqs km' vm',
        list_requests tr = reqs ++ [(prefix, km', vm', 999%Z, Raise e)]
        ∧ Forall answered reqs
  end.
Proof.
  revert st km vm s out s' tr.
  induction fuel as [|fuel IH]; intros st km vm s out s' tr; [done|].
  simpl. rewrite bind_run, log_run, bind_run. unfold request at 1.
  destruct (list_object_versions bucket prefix km vm 999 s) as [[res|e] s1].
  - rewrite bind_run.
    destruct (for_fold_run (E:=E) c (versions res) st s1) as (t & -> & Hl).
    pose proof (logs_copy_requests t Hl) as Hlc.
    pose proof (logs_delete_requests t Hl) as Hld.
    pose proof (logs_list_requests t Hl) as Hll.
    pose proof (logs_observed t Hl) as Hlo.
    destruct (is_truncated res) eqn:Htr; simpl.
    + destruct (list_pages fuel bucket prefix c (scan c (versions res) st)
                  (next_key_marker res) (next_versionid_marker res) s1)
        as [[[out2 s2] t2]|] eqn:Hrec; [|done].
      intros [= <- <- <-].
      apply IH in Hrec as (Hc & Hd & Hout).
      rewrite !list_requests_cons, !copy_requests_cons,
        !delete_requests_cons, !observed_versions_cons.
      rewrite list_requests_app, copy_requests_app, delete_requests_app,
        observed_versions_app, Hc, Hd, Hlc, Hld, Hll, Hlo. simpl.
      split; [done|]. split; [done|].
      destruct out2 as [plan|e].
      * destruct Hout as [-> Hp]. split.
        -- unfold scan. by rewrite foldl_app.
        -- by apply paginated_more.
      * destruct Hout as (reqs & km' & vm' & -> & Hreqs).
        exists ((prefix, km, vm, 999%Z, Return res) :: reqs), km', vm'.
        split; [done|]. constructor; [by eexists | done].
    + intros [= <- <- <-].
      rewrite !list_requests_cons, !copy_requests_cons,
        !delete_requests_cons, !observed_versions_cons.
      rewrite list_requests_app, copy_requests_app, delete_requests_app,
        observed_versions_app, Hlc, Hld, Hll, Hlo. simpl.
      split; [done|]. split; [done|].
      split.
      * by rewrite !app_nil_r.
      * by apply paginated_last.
  - intros [= <- <- <-]. split; [done|]. split; [done|].
    exists [], km, vm. split; [done | constructor].
Qed.
Lemma get_object_versions_spec fuel bucket prefix (c : Z) s out s' tr :
  get_object_versions fuel bucket prefix c s = Some (out, s', tr) →
  copy_requests tr = [] ∧ delete_requests tr = [] ∧
  match out with
  | Return plan =>
      plan = scan c (observed_versions tr) ([], ∅)
      ∧ paginated prefix "" "" (list_requests tr)
  | Raise e =>
      ∃ reqs km' vm',
        list_requests tr = reqs ++ [(prefix, km', vm', 999%Z, Raise e)]
        ∧ Forall answered reqs
  end.
Proof.
  unfold get_object_versions. rewrite bind_run, log_run, bind_run.
  destruct (list_pages fuel bucket prefix c ([], ∅) "" "" s)
    as [[[[plan|e] s1] t1]|] eqn:Hlp; [| |done].
  - apply list_pages_spec in Hlp as (Hc & Hd & -> & Hp).
    rewrite bind_run, log_run. simpl. intros [= <- <- <-].
    rewrite list_requests_cons, copy_requests_cons, delete_requests_cons,
      observed_versions_cons, list_requests_app, copy_requests_app,
      delete_requests_app, observed_versions_app, Hc, Hd. simpl.
    rewrite !app_nil_r. done.
  - apply list_pages_spec in Hlp as (Hc & Hd & Hout).
    intros [= <- <- <-].
    rewrite list_requests_cons, copy_requests_cons, delete_requests_cons.
    done.
Qed.

(** Once the service answers the [n]-th request of the listing with a
    page that is not truncated, every run with more than [n] units of
    fuel returns, and they all return the same. *)
Lemma list_pages_terminates bucket prefix (c : Z) n :
  ∀ st km vm s res,
    nth_response bucket prefix n km vm s = Return res →
    is_truncated res = false →
    ∃ plan s' tr,
      length (list_requests tr) ≤ S n ∧
      ∀ fuel, n < fuel →
        list_pages fuel bucket prefix c st km vm s
        = Some (Return plan, s', tr).
Proof.
  induction n as [|n IH]; intros st km vm s res Hn Hres; simpl in Hn;
    destruct (list_object_versions bucket prefix km vm 999 s)
      as [r s1] eqn:Hreq.
  - subst r.
    destruct (for_fold_run (E:=E) c (versions res) st s1) as (t & Ht & Hl).
    eexists _, _, _. split; cycle 1.
    + intros [|fuel] Hf; [lia|]. simpl.
      rewrite bind_run, log_run, bind_run. unfold request at 1.
      rewrite Hreq, bind_run, Ht, Hres. simpl. reflexivity.
    + rewrite !list_requests_cons, list_requests_app,
        (logs_list_requests t Hl). simpl. lia.
  - destruct r as [r|e]; [|done].
    destruct (for_fold_run (E:=E) c (versions r) st s1) as (t & Ht & Hl).
    destruct (is_truncated r) eqn:Htr.
    + destruct (IH (scan c (versions r) st) _ _ _ _ Hn Hres)
        as (plan & s' & tr & Hlen & Hrun).
      eexists _, _, _. split; cycle 1.
      * intros [|fuel] Hf; [lia|]. simpl.
        rewrite bind_run, log_run, bind_run. unfold request at 1.
        rewrite Hreq, bind_run, Ht, Htr. simpl.
        rewrite (Hrun fuel) by lia. reflexivity.
      * rewrite !list_requests_cons, !list_requests_app,
          (logs_list_requests t Hl). simpl. lia.
    + eexists _, _, _. split; cycle 1.
      * intros [|fuel] Hf; [lia|]. simpl.
        rewrite bind_run, log_run, bind_run. unfold request at 1.
        rewrite Hreq, bind_run, Ht, Htr. simpl. reflexivity.
      * rewrite !list_requests_cons, list_requests_app,
          (logs_list_requests t Hl). simpl. lia.
Qed.
End Listing.

(** ** The plan computed by the scan *)

Section Plan.
Implicit Types (lv : list (string * VersionInfo)) (orphans : gset string)
  (v u : ObjectVersion) (vs : list ObjectVersion) (k : string) (c : Z).

Lemma scan_snoc c vs v st :
  scan c (vs ++ [v]) st = plan_step c (scan c vs st) v.
Proof. unfold scan. by rewrite foldl_app. Qed.

Lemma scan_app c vs1 vs2 st :
  scan c (vs1 ++ vs2) st = scan c vs2 (scan c vs1 st).
Proof. unfold scan. by rewrite foldl_app. Qed.

(** The five ways one record can act on the plan. *)
Lemma plan_step_cases c lv orphans v :
  ((time_of v ≤ c)%Z ∧ dict_get lv (key v) = None ∧
     plan_step c (lv, orphans) v
     = (dict_set lv (key v) (info_of v), orphans ∖ {[key v]}))
  ∨ ((time_of v ≤ c)%Z ∧
     ∃ i, dict_get lv (key v) = Some i ∧ (vi_version_time i < time_of v)%Z ∧
       plan_step c (lv, orphans) v
       = (dict_set lv (key v) (info_of v), orphans ∖ {[key v]}))
  ∨ ((time_of v ≤ c)%Z ∧
     ∃ i, dict_get lv (key v) = Some i ∧ (time_of v ≤ vi_version_time i)%Z ∧
       plan_step c (lv, orphans) v = (lv, orphans ∖ {[key v]}))
  ∨ ((c < time_of v)%Z ∧ dict_get lv (key v) = None ∧
     plan_step c (lv, orphans) v = (lv, orphans ∪ {[key v]}))
  ∨ ((c < time_of v)%Z ∧ is_Some (dict_get lv (key v)) ∧
     plan_step c (lv, orphans) v = (lv, orphans)).
Proof.
  unfold plan_step, time_of.
  destruct (bool_decide_reflect (fromtimestamp (last_modified v) ≤ c)%Z)
    as [Hle|Hgt].
  - destruct (dict_get lv (key v)) as [i|] eqn:Hget.
    + destruct (bool_decide_reflect
                  (fromtimestamp (last_modified v) > vi_version_time i)%Z).
      * right; left. split; [done|]. exists i. split_and!; [done|lia|done].
      * right; right; left. split; [done|]. exists i.
        split_and!; [done|lia|done].
    + left. done.
  - destruct (dict_get lv (key v)) as [i|] eqn:Hget.
    + rewrite bool_decide_eq_false_2 by done.
      do 4 right. split_and!; [lia|by eexists|done].
    + rewrite bool_decide_eq_true_2 by done.
      do 3 right; left. split_and!; [lia|done|done].
Qed.

(** An entry of the mapping is never removed and its time never goes
    down, whatever record comes next. *)
Lemma plan_step_entry_mono c lv orphans v k i :
  dict_get lv k = Some i →
  ∃ i', dict_get (plan_step c (lv, orphans) v).1 k = Some i'
        ∧ (vi_version_time i ≤ vi_version_time i')%Z.
Proof.
  intros Hk.
  destruct (plan_step_cases c lv orphans v)
    as [(_ & Hn & ->)|[(_ & j & Hj & Hlt & ->)|[(_ & j & _ & _ & ->)|
        [(_ & _ & ->)|(_ & _ & ->)]]]]; simpl; try (exists i; split; [done|lia]).
  - destruct (decide (key v = k)) as [<-|Hne]; [congruence|].
    rewrite dict_get_set_ne by done. exists i. split; [done|lia].
  - destruct (decide (key v = k)) as [<-|Hne].
    + rewrite dict_get_set_eq. eexists; split; [done|].
      simpl. unfold time_of in Hlt. simplify_eq. lia.
    + rewrite dict_get_set_ne by done. exists i. split; [done|lia].
Qed.

(** A key with an entry does not enter the set. *)
Lemma plan_step_no_entry c lv orphans v k :
  is_Some (dict_get lv k) →
  k ∈ (plan_step c (lv, orphans) v).2 → k ∈ orphans.
Proof.
  intros Hk.
  destruct (plan_step_cases c lv orphans v)
    as [(_ & _ & ->)|[(_ & j & _ & _ & ->)|[(_ & j & _ & _ & ->)|
        [(_ & Hn & ->)|(_ & _ & ->)]]]]; simpl;
    try (by intros [? _]%elem_of_difference); [|done].
  intros [?|Heq%elem_of_singleton]%elem_of_union; [done|]. subst k.
  rewrite Hn in Hk. by destruct Hk.
Qed.

Lemma scan_entry_mono c vs lv orphans k i :
  dict_get lv k = Some i → k ∉ orphans →
  ∃ i', dict_get (scan c vs (lv, orphans)).1 k = Some i'
        ∧ (vi_version_time i ≤ vi_version_time i')%Z
        ∧ k ∉ (scan c vs (lv, orphans)).2.
Proof.
  revert lv orphans i. induction vs as [|v vs IH]; intros lv orphans i Hk Ho.
  - exists i. simpl. split_and!; [done|lia|done].
  - change (scan c (v :: vs) (lv, orphans))
      with (scan c vs (plan_step c (lv, orphans) v)).
    destruct (plan_step_entry_mono c lv orphans v k i Hk) as (i1 & H1 & Hle).
    assert (k ∉ (plan_step c (lv, orphans) v).2) as Ho1.
    { intros Hin. apply Ho.
      apply (plan_step_no_entry c lv orphans v k); [by exists i | done]. }
    destruct (plan_step c (lv, orphans) v) as [lv1 o1]. simpl in *.
    destruct (IH lv1 o1 i1 H1 Ho1) as (i' & H' & Hle' & Ho').
    exists i'. split_and!; [done|lia|done].
Qed.
Lemma elem_of_snoc vs u v : v ∈ vs ++ [u] ↔ v ∈ vs ∨ v = u.
Proof. by rewrite elem_of_app, list_elem_of_singleton. Qed.

Lemma plan_step_lookup_ne c lv orphans v k :
  key v ≠ k → dict_get (plan_step c (lv, orphans) v).1 k = dict_get lv k.
Proof.
  intros Hne.
  destruct (plan_step_cases c lv orphans v)
    as [(_ & _ & ->)|[(_ & j & _ & _ & ->)|[(_ & j & _ & _ & ->)|
        [(_ & _ & ->)|(_ & _ & ->)]]]]; simpl;
    by rewrite ?dict_get_set_ne.
Qed.

(** An entry, once the remaining records of its key are no later than
    it, stays as it is. *)
Lemma scan_entry_stable c vs lv orphans k i :
  dict_get lv k = Some i →
  (∀ u, u ∈ vs → key u = k → (time_of u ≤ c)%Z →
        (time_of u ≤ vi_version_time i)%Z) →
  dict_get (scan c vs (lv, orphans)).1 k = Some i.
Proof.
  revert lv orphans. induction vs as [|u vs IH]; intros lv orphans Hk Hle;
    [done|].
  change (scan c (u :: vs) (lv, orphans))
    with (scan c vs (plan_step c (lv, orphans) u)).
  assert (dict_get (plan_step c (lv, orphans) u).1 k = Some i) as Hk1.
  { destruct (decide (key u = k)) as [Heq|Hne];
      [|by rewrite plan_step_lookup_ne].
    specialize (Hle u (list_elem_of_here _ _) Heq).
    destruct (plan_step_cases c lv orphans u)
      as [(_ & Hn & _)|[(Hc & j & Hj & Hlt & _)|[(_ & j & _ & _ & ->)|
          [(_ & _ & ->)|(_ & _ & ->)]]]]; simpl; try done.
    - congruence.
    - assert (j = i) as -> by congruence. specialize (Hle Hc). lia. }
  destruct (plan_step c (lv, orphans) u) as [lv1 o1]. simpl in Hk1.
  apply IH; [done|]. intros u' Hu'. apply Hle. by right.
Qed.

(** Where an entry of the final mapping comes from. *)
Lemma scan_entry_origin c vs k i :
  dict_get (scan c vs ([], ∅)).1 k = Some i →
  ∃ v, v ∈ vs ∧ key v = k ∧ (time_of v ≤ c)%Z ∧ i = info_of v.
Proof.
  induction vs as [|u vs IH] using rev_ind; [done|].
  rewrite scan_snoc. destruct (scan c vs ([], ∅)) as [lv o]. simpl in IH.
  assert (dict_get lv k = Some i →
          ∃ v, v ∈ vs ++ [u] ∧ key v = k ∧ (time_of v ≤ c)%Z ∧ i = info_of v)
    as Hold.
  { intros (v & Hv & ?)%IH. exists v. split; [|done].
    apply elem_of_app. by left. }
  destruct (decide (key u = k)) as [Heq|Hne];
    [|by rewrite plan_step_lookup_ne].
  assert (u ∈ vs ++ [u]) as Hu by (apply elem_of_app; right; left).
  destruct (plan_step_cases c lv o u)
    as [(Hc & _ & ->)|[(Hc & j & _ & _ & ->)|[(_ & j & _ & _ & ->)|
        [(_ & _ & ->)|(_ & _ & ->)]]]]; simpl; try done.
  - rewrite <- Heq, dict_get_set_eq. intros [= <-]. by exists u.
  - rewrite <- Heq, dict_get_set_eq. intros [= <-]. by exists u.
Qed.

(** Every record at or before the cutoff is covered by the entry of its
    key. *)
Lemma scan_entry_covers c vs v :
  v ∈ vs → (time_of v ≤ c)%Z →
  ∃ i, dict_get (scan c vs ([], ∅)).1 (key v) = Some i
       ∧ (time_of v ≤ vi_version_time i)%Z.
Proof.
  induction vs as [|u vs IH] using rev_ind; [by intros ?%elem_of_nil|].
  rewrite scan_snoc. destruct (scan c vs ([], ∅)) as [lv o]. simpl in IH.
  intros [Hv|Hv]%elem_of_snoc Hc.
  - destruct (IH Hv Hc) as (i & Hi & Hle).
    destruct (plan_step_entry_mono c lv o u (key v) i Hi) as (i' & Hi' & Hle').
    exists i'. split; [done|lia].
  - subst u.
    destruct (plan_step_cases c lv o v)
      as [(_ & _ & ->)|[(_ & j & _ & _ & ->)|[(_ & j & Hj & Hle & ->)|
          [(? & _ & _)|(? & _ & _)]]]]; simpl; try lia.
    + rewrite dict_get_set_eq. eexists. split; [done|]. simpl.
      unfold time_of. lia.
    + rewrite dict_get_set_eq. eexists. split; [done|]. simpl.
      unfold time_of. lia.
    + by exists j.
Qed.

(** The keys of the final set: those seen, with no record at or before
    the cutoff. *)
Lemma scan_orphans c vs k :
  k ∈ (scan c vs ([], ∅)).2 ↔
  (∃ v, v ∈ vs ∧ key v = k)
  ∧ ∀ v, v ∈ vs → key v = k → (c < time_of v)%Z.
Proof.
  induction vs as [|u vs IH] using rev_ind.
  { simpl. split; [by intros ?%not_elem_of_empty|].
    by intros [(v & ?%elem_of_nil & _) _]. }
  pose proof (scan_entry_origin c vs k) as Horigin.
  pose proof (λ v, scan_entry_covers c vs v) as Hcovers.
  rewrite scan_snoc. destruct (scan c vs ([], ∅)) as [lv o].
  simpl in IH, Horigin, Hcovers.
  assert (u ∈ vs ++ [u]) as Hu by (apply elem_of_app; right; left).
  assert (∀ v, v ∈ vs → v ∈ vs ++ [u]) as Hsub
    by (intros v ?; apply elem_of_app; by left).
  assert (key u ≠ k → (∃ v, v ∈ vs ++ [u] ∧ key v = k) →
          ∃ v, v ∈ vs ∧ key v = k) as Hex.
  { intros Hne (v & [?| ->]%elem_of_snoc & Hv);
      [by exists v | done]. }
  destruct (plan_step_cases c lv o u)
    as [(Hc & _ & ->)|[(Hc & j & _ & _ & ->)|[(Hc & j & _ & _ & ->)|
        [(Hc & Hn & ->)|(Hc & [j Hj] & ->)]]]]; simpl.
  1-3: rewrite elem_of_difference, not_elem_of_singleton, IH; split;
    [ intros [[(v & Hv & Hkv) Hall] Hne]; split; [exists v; auto|];
        intros w [Hw| ->]%elem_of_snoc Hkw;
        [by apply Hall | congruence]
    | intros [Hsome Hall];
        assert (key u ≠ k) as Hne
          by (intros Heq; specialize (Hall u Hu Heq); lia);
        split; [split; [by apply Hex | auto] | congruence] ].
  - rewrite elem_of_union, elem_of_singleton, IH. split.
    + intros [[(v & Hv & Hkv) Hall]| ->].
      * split; [exists v; auto|].
        intros w [Hw| ->]%elem_of_snoc Hkw;
          [by apply Hall | done].
      * split; [by exists u|].
        intros w [Hw| ->]%elem_of_snoc Hkw; [|done].
        destruct (decide (time_of w ≤ c)%Z) as [Hle|]; [|lia].
        destruct (Hcovers w Hw Hle) as (i & Hi & _). congruence.
    + intros [Hsome Hall].
      destruct (decide (key u = k)) as [Heq|Hne]; [by right|].
      left. split; [by apply Hex | auto].
  - rewrite IH. split.
    + intros [(v & Hv & Hkv) Hall]. split; [exists v; auto|].
      intros w [Hw| ->]%elem_of_snoc Hkw;
        [by apply Hall | done].
    + intros [Hsome Hall].
      destruct (decide (key u = k)) as [Heq|Hne];
        [|split; [by apply Hex | auto]].
      subst k. destruct (Horigin j Hj) as (w & Hw & Hkw & Hle & _).
      specialize (Hall w (Hsub w Hw) Hkw). lia.
Qed.

(** The entry of a key is the first record, in arrival order, among
    those of the key with the greatest time at or before the cutoff. *)
Lemma scan_first_max c l1 v l2 :
  (time_of v ≤ c)%Z →
  (∀ u, u ∈ l1 → key u = key v → (time_of u ≤ c)%Z →
        (time_of u < time_of v)%Z) →
  (∀ u, u ∈ l2 → key u = key v → (time_of u ≤ c)%Z →
        (time_of u ≤ time_of v)%Z) →
  dict_get (scan c (l1 ++ v :: l2) ([], ∅)).1 (key v) = Some (info_of v).
Proof.
  intros Hc H1 H2. rewrite scan_app.
  change (scan c (v :: l2) (scan c l1 ([], ∅)))
    with (scan c l2 (plan_step c (scan c l1 ([], ∅)) v)).
  pose proof (scan_entry_origin c l1 (key v)) as Horigin.
  destruct (scan c l1 ([], ∅)) as [lv o]. simpl in Horigin.
  assert (dict_get (plan_step c (lv, o) v).1 (key v) = Some (info_of v))
    as Hv.
  { destruct (plan_step_cases c lv o v)
      as [(_ & _ & ->)|[(_ & j & _ & _ & ->)|[(_ & j & Hj & Hle & _)|
          [(? & _ & _)|(? & _ & _)]]]]; simpl; try lia;
      try apply dict_get_set_eq.
    destruct (Horigin j Hj) as (u & Hu & Hku & Hcu & ->).
    specialize (H1 u Hu Hku Hcu). simpl in Hle. unfold time_of in *. lia. }
  destruct (plan_step c (lv, o) v) as [lv1 o1]. simpl in Hv.
  by apply scan_entry_stable.
Qed.
End Plan.

(** ** The recorded time is the latest one *)

Section Latest.
Implicit Types (v u : ObjectVersion) (vs : list ObjectVersion) (k : string)
  (c t : Z).

Lemma max_time_None c k vs :
  max_time_at_or_before c k vs = None →
  ∀ u, u ∈ vs → key u = k → (c < time_of u)%Z.
Proof.
  induction vs as [|v vs IH]; [by intros _ u ?%elem_of_nil|]. simpl.
  case_bool_decide as Hv; [done|].
  intros Hrest u [->|Hu]%elem_of_cons Hk; [|by apply IH].
  destruct (decide (time_of v ≤ c)%Z); [tauto | lia].
Qed.

Lemma max_time_Some c k vs t :
  max_time_at_or_before c k vs = Some t →
  (∃ u, u ∈ vs ∧ key u = k ∧ (time_of u ≤ c)%Z ∧ time_of u = t)
  ∧ ∀ u, u ∈ vs → key u = k → (time_of u ≤ c)%Z → (time_of u ≤ t)%Z.
Proof.
  revert t. induction vs as [|v vs IH]; intros t; [done|]. simpl.
  case_bool_decide as Hv.
  - destruct (max_time_at_or_before c k vs) as [t0|] eqn:Hrest; simpl;
      intros [= <-].
    + destruct (IH t0 eq_refl) as [(u & Hu & Hk & Hc & Ht) Hmax].
      split.
      * destruct (Z.max_spec (time_of v) t0) as [[_ ->]|[_ ->]].
        -- exists u. split_and!; [by right|done..].
        -- exists v. split_and!; [by left|tauto..|done].
      * intros w [->|Hw]%elem_of_cons Hkw Hcw; [lia|].
        specialize (Hmax w Hw Hkw Hcw). lia.
    + split.
      * exists v. split_and!; [by left|tauto..|done].
      * intros w [->|Hw]%elem_of_cons Hkw Hcw; [lia|].
        pose proof (max_time_None c k vs Hrest w Hw Hkw). lia.
  - intros Hrest. destruct (IH t Hrest) as [(u & Hu & ?) Hmax].
    split; [exists u; split; [by right|done]|].
    intros w [->|Hw]%elem_of_cons Hkw Hcw; [tauto | by apply Hmax].
Qed.

Lemma max_time_is_Some c k vs v :
  v ∈ vs → key v = k → (time_of v ≤ c)%Z →
  is_Some (max_time_at_or_before c k vs).
Proof.
  intros Hv Hk Hc.
  destruct (max_time_at_or_before c k vs) as [t|] eqn:Hmax; [by eexists|].
  pose proof (max_time_None c k vs Hmax v Hv Hk). lia.
Qed.

(** The arrival order does not matter for the latest time. *)
Lemma max_time_perm c k vs vs' :
  vs ≡ₚ vs' → max_time_at_or_before c k vs = max_time_at_or_before c k vs'.
Proof.
  intros Hperm.
  destruct (max_time_at_or_before c k vs) as [t|] eqn:H1;
    destruct (max_time_at_or_before c k vs') as [t'|] eqn:H2; [| | |done].
  - destruct (max_time_Some _ _ _ _ H1) as [(u & Hu & Hku & Hcu & <-) Hm].
    destruct (max_time_Some _ _ _ _ H2) as [(u' & Hu' & Hku' & Hcu' & <-) Hm'].
    rewrite Hperm in Hu. rewrite <- Hperm in Hu'.
    specialize (Hm u' Hu' Hku' Hcu'). specialize (Hm' u Hu Hku Hcu).
    f_equal. lia.
  - destruct (max_time_Some _ _ _ _ H1) as [(u & Hu & Hku & Hcu & _) _].
    rewrite Hperm in Hu. pose proof (max_time_None _ _ _ H2 u Hu Hku). lia.
  - destruct (max_time_Some _ _ _ _ H2) as [(u & Hu & Hku & Hcu & _) _].
    rewrite <- Hperm in Hu. pose proof (max_time_None _ _ _ H1 u Hu Hku). lia.
Qed.

(** The time recorded for a key with a record at or before the cutoff. *)
Lemma scan_entry_time c vs v :
  v ∈ vs → (time_of v ≤ c)%Z →
  ∃ info, dict_get (scan c vs ([], ∅)).1 (key v) = Some info
          ∧ max_time_at_or_before c (key v) vs
            = Some (vi_version_time info).
Proof.
  intros Hv Hc.
  destruct (scan_entry_covers c vs v Hv Hc) as (info & Hinfo & Hle).
  exists info. split; [done|].
  destruct (max_time_is_Some c (key v) vs v Hv eq_refl Hc) as [t Ht].
  rewrite Ht. f_equal.
  destruct (max_time_Some _ _ _ _ Ht) as [(u & Hu & Hku & Hcu & <-) Hmax].
  destruct (scan_entry_covers c vs u Hu Hcu) as (info' & Hinfo' & Hle').
  rewrite Hku, Hinfo in Hinfo'. injection Hinfo' as <-.
  destruct (scan_entry_origin c vs (key v) info Hinfo)
    as (w & Hw & Hkw & Hcw & ->).
  specialize (Hmax w Hw Hkw Hcw). simpl in *. unfold time_of in *. lia.
Qed.

(** Every key that was seen is in the mapping or in the set, not both. *)
Lemma scan_classification c vs k :
  k ∈ key <$> vs →
  (is_Some (dict_get (scan c vs ([], ∅)).1 k) ∧ k ∉ (scan c vs ([], ∅)).2)
  ∨ (dict_get (scan c vs ([], ∅)).1 k = None ∧ k ∈ (scan c vs ([], ∅)).2).
Proof.
  intros (v & -> & Hv)%list_elem_of_fmap.
  destruct (max_time_at_or_before c (key v) vs) as [t|] eqn:Hmax.
  - left.
    destruct (max_time_Some _ _ _ _ Hmax) as [(u & Hu & Hku & Hcu & _) _].
    destruct (scan_entry_covers c vs u Hu Hcu) as (info & Hinfo & _).
    rewrite Hku in Hinfo. split; [by eexists|].
    intros [_ Hall]%scan_orphans. specialize (Hall u Hu Hku). lia.
  - right. pose proof (max_time_None _ _ _ Hmax) as Hnone. split.
    + destruct (dict_get (scan c vs ([], ∅)).1 (key v)) as [info|] eqn:Hinfo;
        [|done].
      destruct (scan_entry_origin c vs (key v) info Hinfo)
        as (w & Hw & Hkw & Hcw & _).
      specialize (Hnone w Hw Hkw). lia.
    + apply scan_orphans. split; [by exists v | done].
Qed.
End Latest.

(** ** The two apply phases *)

Section Apply.
Context {E St : Type}.
Variable strftime : Z → string.
Implicit Types (s : St) (tr : list (Event E)) (bucket : Bucket E St).

(** A loop whose body always comes back comes back, with the events of
    its iterations in order. *)
Lemma for_each_total {A} (P : A → list (Event E) → Prop)
    (xs : list A) (body : A → M E St unit) :
  (∀ x s, ∃ s' t, body x s = Some (Return tt, s', t) ∧ P x t) →
  ∀ s, ∃ s' ts,
    for_each xs body s = Some (Return tt, s', concat ts) ∧ Forall2 P xs ts.
Proof.
  intros Hbody. induction xs as [|x xs IH]; intros s.
  - exists s, []. split; [done | constructor].
  - destruct (Hbody x s) as (s1 & t & Hx & HP).
    destruct (IH s1) as (s' & ts & Hxs & HPs).
    exists s', (t :: ts). split; [|by constructor].
    simpl. by rewrite (bind_Return _ _ _ _ _ _ Hx), Hxs.
Qed.

Lemma restore_body_run bucket item s :
  let '(k, version_info) := item in
  let r := (copy_object bucket (bucket_name bucket) k k
              (vi_versionid version_info) s).1 in
  try_except
    (log INFO (restore_action strftime k version_info) [] ;;
     log DEBUG "Copying object: bucket=%s, key=%s, versionId=%s"
       [AStr (bucket_name bucket); AStr k; AStr (vi_versionid version_info)] ;;
     request (copy_object bucket (bucket_name bucket) k k
                (vi_versionid version_info))
       (CopyObject (bucket_name bucket) k k (vi_versionid version_info)) ;;
     log DEBUG "Successfully restored object: %s" [AStr k])
    (λ e,
     log ERROR "Error restoring '%s' version '%s': %s"
       [AStr k; AStr (vi_versionid version_info); AExn e] ;;
     log_exc_info DEBUG "Exception details:" e) s
  = Some (Return tt,
          (copy_object bucket (bucket_name bucket) k k
             (vi_versionid version_info) s).2,
          restore_events strftime bucket item r).
Proof.
  destruct item as [k version_info]. simpl.
  unfold try_except. rewrite bind_run, log_run, bind_run, log_run, bind_run.
  unfold request at 1.
  by destruct (copy_object bucket (bucket_name bucket) k k
                 (vi_versionid version_info) s) as [[[]|e] s1].
Qed.

Lemma delete_body_run bucket k s :
  try_except
    (log INFO (delete_action k) [] ;;
     log DEBUG "Deleting object: bucket=%s, key=%s"
       [AStr (bucket_name bucket); AStr k] ;;
     request (delete_object bucket k) (DeleteObject k) ;;
     log DEBUG "Successfully deleted object: %s" [AStr k])
    (λ e,
     log ERROR "Error deleting '%s': %s" [AStr k; AExn e] ;;
     log_exc_info DEBUG "Exception details:" e) s
  = Some (Return tt, (delete_object bucket k s).2,
          delete_events bucket k (delete_object bucket k s).1).
Proof.
  unfold try_except. rewrite bind_run, log_run, bind_run, log_run, bind_run.
  unfold request at 1.
  by destruct (delete_object bucket k s) as [[[]|e] s1].
Qed.
Lemma for_each_log {A} (xs : list A) (body : A → M E St unit)
    (line : A → Event E) s :
  (∀ x s, body x s = Some (Return tt, s, [line x])) →
  for_each xs body s = Some (Return tt, s, map line xs).
Proof.
  intros Hbody. induction xs as [|x xs IH]; [done|].
  simpl. by rewrite (bind_Return _ _ _ _ _ _ (Hbody x s)), IH.
Qed.

Lemma restore_dry_run bucket lv s :
  restore_latest_versions strftime bucket lv true s
  = Some (Return tt, s,
          Log DEBUG "Starting to restore latest versions for %d objects"
            [AInt (Z.of_nat (length lv))]
          :: map (λ item, Log INFO "[Dry Run] Would %s"
                            [AStr (restore_action strftime item.1 item.2)])
               lv).
Proof.
  unfold restore_latest_versions. rewrite bind_run, log_run.
  erewrite for_each_log; [done|]. by intros [k version_info] s0.
Qed.

Lemma delete_dry_run bucket orphans s :
  delete_newer_versions bucket orphans true s
  = Some (Return tt, s,
          Log DEBUG "Starting to delete %d newer versions"
            [AInt (Z.of_nat (size orphans))]
          :: map (λ k, Log INFO "[Dry Run] Would %s" [AStr (delete_action k)])
               (elements orphans)).
Proof.
  unfold delete_newer_versions. rewrite bind_run, log_run.
  erewrite for_each_log; [done|]. by intros k s0.
Qed.

Lemma dry_run_lines {A} (action : A → string) (xs : list A) :
  let tr := map (λ x, Log (E:=E) INFO "[Dry Run] Would %s" [AStr (action x)]) xs in
  list_requests tr = [] ∧ copy_requests tr = [] ∧ delete_requests tr = []
  ∧ info_lines tr = map (λ x, ("[Dry Run] Would %s", [AStr (action x)])) xs.
Proof.
  induction xs as [|x xs (Hl & Hc & Hd & Hi)]; [done|]. simpl.
  rewrite list_requests_cons, copy_requests_cons, delete_requests_cons,
    info_lines_cons, Hl, Hc, Hd, Hi. done.
Qed.

Lemma restored_trace bucket lv ts :
  Forall2 (restored strftime bucket) lv ts →
  list_requests (concat ts) = []
  ∧ copy_requests (concat ts) = map (copy_of bucket) lv
  ∧ delete_requests (concat ts) = []
  ∧ ∀ b k k' vid e,
      CopyObject b k k' vid (Raise e) ∈ concat ts →
      Log ERROR "Error restoring '%s' version '%s': %s"
        [AStr k; AStr vid; AExn e] ∈ concat ts.
Proof.
  induction 1 as [|item t lv ts [r ->] _ (Hl & Hc & Hd & Herr)];
    cbn [concat map].
  { split_and!; try done. by intros b k k' vid e ?%elem_of_nil. }
  rewrite list_requests_app, copy_requests_app, delete_requests_app,
    Hl, Hc, Hd.
  split_and!; try (by destruct r).
  intros b k k' vid e [Hin|Hin]%elem_of_app; apply elem_of_app;
    [left | right; by eapply Herr].
  unfold restore_events in *.
  destruct r as [[]|e']; simpl in Hin;
    repeat (apply elem_of_cons in Hin as [Hin|Hin]; try done);
    try (by apply elem_of_nil in Hin).
  injection Hin as -> -> -> -> ->. simpl. do 3 right. left.
Qed.

Lemma deleted_trace bucket ks ts :
  Forall2 (deleted bucket) ks ts →
  list_requests (concat ts) = []
  ∧ copy_requests (concat ts) = []
  ∧ delete_requests (concat ts) = ks
  ∧ ∀ k e,
      DeleteObject k (Raise e) ∈ concat ts →
      Log ERROR "Error deleting '%s': %s" [AStr k; AExn e] ∈ concat ts.
Proof.
  induction 1 as [|k0 t ks ts [r ->] _ (Hl & Hc & Hd & Herr)];
    cbn [concat].
  { split_and!; try done. by intros k e ?%elem_of_nil. }
  rewrite list_requests_app, copy_requests_app, delete_requests_app,
    Hl, Hc, Hd.
  split_and!; try (by destruct r).
  intros k e [Hin|Hin]%elem_of_app; apply elem_of_app;
    [left | right; by eapply Herr].
  unfold delete_events in *.
  destruct r as [[]|e']; simpl in Hin;
    repeat (apply elem_of_cons in Hin as [Hin|Hin]; try done);
    try (by apply elem_of_nil in Hin).
  injection Hin as -> ->. simpl. do 3 right. left.
Qed.

(** Outside a dry run the restore phase always returns normally, asks for
    one copy per entry, in order, and logs every refusal. *)
Lemma restore_run bucket lv s :
  ∃ s' tr,
    restore_latest_versions strftime bucket lv false s
    = Some (Return tt, s', tr)
    ∧ list_requests tr = []
    ∧ copy_requests tr = map (copy_of bucket) lv
    ∧ delete_requests tr = []
    ∧ ∀ b k k' vid e,
        CopyObject b k k' vid (Raise e) ∈ tr →
        Log ERROR "Error restoring '%s' version '%s': %s"
          [AStr k; AStr vid; AExn e] ∈ tr.
Proof.
  unfold restore_latest_versions. rewrite bind_run, log_run.
  edestruct (for_each_total (restored strftime bucket) lv) as (s' & ts & -> & Hts).
  { intros [k version_info] s0. eexists _, _. split.
    - apply (restore_body_run bucket (k, version_info) s0).
    - by eexists. }
  destruct (restored_trace bucket lv ts Hts) as (Hl & Hc & Hd & Herr).
  eexists _, _. split; [done|]. cbn [app].
  rewrite list_requests_cons, copy_requests_cons, delete_requests_cons.
  split_and!; try done.
  intros b k k' vid e [?|Hin]%elem_of_cons; [done|].
  right. by eapply Herr.
Qed.

Lemma delete_run bucket orphans s :
  ∃ s' tr,
    delete_newer_versions bucket orphans false s = Some (Return tt, s', tr)
    ∧ list_requests tr = []
    ∧ copy_requests tr = []
    ∧ delete_requests tr = elements orphans
    ∧ ∀ k e,
        DeleteObject k (Raise e) ∈ tr →
        Log ERROR "Error deleting '%s': %s" [AStr k; AExn e] ∈ tr.
Proof.
  unfold delete_newer_versions. rewrite bind_run, log_run.
  edestruct (for_each_total (deleted bucket) (elements orphans))
    as (s' & ts & -> & Hts).
  { intros k s0. eexists _, _. split.
    - apply (delete_body_run bucket k s0).
    - by eexists. }
  destruct (deleted_trace bucket _ ts Hts) as (Hl & Hc & Hd & Herr).
  eexists _, _. split; [done|]. cbn [app].
  rewrite list_requests_cons, copy_requests_cons, delete_requests_cons.
  split_and!; try done.
  intros k e [?|Hin]%elem_of_cons; [done|].
  right. by eapply Herr.
Qed.
Lemma restore_dry_projections bucket lv s :
  ∃ tr,
    restore_latest_versions strftime bucket lv true s = Some (Return tt, s, tr)
    ∧ copy_requests tr = [] ∧ delete_requests tr = []
    ∧ info_lines tr
      = map (λ item, ("[Dry Run] Would %s",
                      [AStr (restore_action strftime item.1 item.2)])) lv.
Proof.
  eexists. split; [apply restore_dry_run|].
  destruct (dry_run_lines (λ item, restore_action strftime item.1 item.2) lv)
    as (_ & Hc & Hd & Hi).
  by rewrite copy_requests_cons, delete_requests_cons, info_lines_cons,
    Hc, Hd, Hi.
Qed.

Lemma delete_dry_projections bucket orphans s :
  ∃ tr,
    delete_newer_versions bucket orphans true s = Some (Return tt, s, tr)
    ∧ copy_requests tr = [] ∧ delete_requests tr = []
    ∧ info_lines tr
      = map (λ k, ("[Dry Run] Would %s", [AStr (delete_action k)]))
          (elements orphans).
Proof.
  eexists. split; [apply delete_dry_run|].
  destruct (dry_run_lines delete_action (elements orphans))
    as (_ & Hc & Hd & Hi).
  by rewrite copy_requests_cons, delete_requests_cons, info_lines_cons,
    Hc, Hd, Hi.
Qed.

(** Either way, a phase returns normally. *)
Lemma restore_total bucket lv (dry_run : bool) s :
  ∃ s' tr,
    restore_latest_versions strftime bucket lv dry_run s
    = Some (Return tt, s', tr)
    ∧ copy_requests tr = (if dry_run then [] else map (copy_of bucket) lv)
    ∧ delete_requests tr = [].
Proof.
  destruct dry_run.
  - destruct (restore_dry_projections bucket lv s) as (tr & ? & ? & ? & _).
    by exists s, tr.
  - destruct (restore_run bucket lv s) as (s' & tr & ? & _ & ? & ? & _).
    by exists s', tr.
Qed.

Lemma delete_total bucket orphans (dry_run : bool) s :
  ∃ s' tr,
    delete_newer_versions bucket orphans dry_run s
    = Some (Return tt, s', tr)
    ∧ copy_requests tr = []
    ∧ delete_requests tr = (if dry_run then [] else elements orphans).
Proof.
  destruct dry_run.
  - destruct (delete_dry_projections bucket orphans s)
      as (tr & ? & ? & ? & _).
    by exists s, tr.
  - destruct (delete_run bucket orphans s) as (s' & tr & ? & _ & ? & ? & _).
    by exists s', tr.
Qed.
End Apply.

(** ** Properties of the apply phases *)

Section ApplyProperties.
Context {E St : Type}.
Variable strftime : Z → string.
Implicit Types (s : St) (tr : list (Event E)) (bucket : Bucket E St).

(** C5. In a dry run neither phase sends a request to the bucket: the
    service is left as it was, no [copy_object] and no [delete_object]
    call is in the trace, and the [logger.info] calls are exactly one
    "[Dry Run] Would ..." line per entry of the input, in iteration
    order. *)
Theorem dry_run_only_logs bucket
    (latest_versions : list (string * VersionInfo))
    (keys_without_older_versions : gset string) s :
  (∃ tr,
     restore_latest_versions strftime bucket latest_versions true s
     = Some (Return tt, s, tr)
     ∧ copy_requests tr = [] ∧ delete_requests tr = []
     ∧ info_lines tr
       = map (λ item, ("[Dry Run] Would %s",
                       [AStr (restore_action strftime item.1 item.2)]))
           latest_versions)
  ∧ (∃ tr,
       delete_newer_versions bucket keys_without_older_versions true s
       = Some (Return tt, s, tr)
       ∧ copy_requests tr = [] ∧ delete_requests tr = []
       ∧ info_lines tr
         = map (λ k, ("[Dry Run] Would %s", [AStr (delete_action k)]))
             (elements keys_without_older_versions)).
Proof.
  split.
  - apply restore_dry_projections.
  - apply delete_dry_projections.
Qed.

(** C6. Outside a dry run, whatever the service answers, each phase
    returns normally (no exception reaches the caller), sends one request
    per entry of its input, in iteration order, the failed ones included,
    and logs an error line with the key (and version) and the exception
    for every request the service refused. *)
Theorem per_key_failure_isolated bucket
    (latest_versions : list (string * VersionInfo))
    (keys_without_older_versions : gset string) s :
  (∃ s' tr,
     restore_latest_versions strftime bucket latest_versions false s
     = Some (Return tt, s', tr)
     ∧ copy_requests tr = map (copy_of bucket) latest_versions
     ∧ ∀ b k k' vid e,
         CopyObject b k k' vid (Raise e) ∈ tr →
         Log ERROR "Error restoring '%s' version '%s': %s"
           [AStr k; AStr vid; AExn e] ∈ tr)
  ∧ (∃ s' tr,
       delete_newer_versions bucket keys_without_older_versions false s
       = Some (Return tt, s', tr)
       ∧ delete_requests tr = elements keys_without_older_versions
       ∧ ∀ k e,
           DeleteObject k (Raise e) ∈ tr →
           Log ERROR "Error deleting '%s': %s" [AStr k; AExn e] ∈ tr).
Proof.
  split.
  - destruct (restore_run strftime bucket latest_versions s)
      as (s' & tr & Hrun & _ & Hc & _ & Herr).
    by exists s', tr.
  - destruct (delete_run bucket keys_without_older_versions s)
      as (s' & tr & Hrun & _ & _ & Hd & Herr).
    by exists s', tr.
Qed.

End ApplyProperties.

(** ** The orchestrator and the pagination *)

Section Orchestration.
Context {E St : Type}.
Variables strftime isoformat : Z → string.
Implicit Types (s : St) (tr : list (Event E)) (bucket : Bucket E St).

(** C7. When the service refuses a listing request, [get_object_versions]
    ends with that same exception and returns no plan; the refused
    request is its last one (no retry), and [recover_objects] ends with
    the exception too, without a single [copy_object] or [delete_object]
    call. *)
Theorem listing_failure_propagates fuel bucket prefix (c : Z)
    (dry_run delete_newer : option bool) s out s1 tr p km vm mk e :
  get_object_versions fuel bucket prefix c s = Some (out, s1, tr) →
  (p, km, vm, mk, Raise e) ∈ list_requests tr →
  out = Raise e
  ∧ (∃ reqs, list_requests tr = reqs ++ [(p, km, vm, mk, Raise e)]
             ∧ Forall answered reqs)
  ∧ ∃ tr',
      recover_objects strftime isoformat fuel bucket prefix c
        dry_run delete_newer s = Some (Raise e, s1, tr')
      ∧ copy_requests tr' = [] ∧ delete_requests tr' = [].
Proof.
  intros Hgv Hin.
  destruct (get_object_versions_spec _ _ _ _ _ _ _ _ Hgv) as (Hc & Hd & Hout).
  destruct out as [plan|e'].
  - destruct Hout as [_ Hp%paginated_answered].
    rewrite Forall_forall in Hp. by destruct (Hp _ Hin) as [r [=]].
  - destruct Hout as (reqs & km' & vm' & Hreqs & Hans).
    assert ((p, km, vm, mk, @Raise E ListResult e)
            = (prefix, km', vm', 999%Z, Raise e')) as [= -> -> -> -> ->].
    { rewrite Hreqs in Hin. apply elem_of_app in Hin as [Hin|Hin].
      - rewrite Forall_forall in Hans. by destruct (Hans _ Hin) as [r [=]].
      - by apply list_elem_of_singleton in Hin. }
    split; [done|]. split; [by exists reqs|].
    unfold recover_objects. rewrite bind_run, log_run, bind_run, Hgv.
    eexists. split; [done|]. cbn [app].
    by rewrite copy_requests_cons, delete_requests_cons, Hc, Hd.
Qed.

(** C8. Once the plan is there, [recover_objects] runs
    [restore_latest_versions] on it whatever the flags, runs
    [delete_newer_versions] after it exactly when [delete_newer] is true,
    and returns normally.  With [delete_newer] false or left out, the
    whole run issues no [delete_object] call, however many keys the set
    holds. *)
Theorem delete_phase_opt_in fuel bucket prefix (c : Z)
    (dry_run delete_newer : option bool) s
    (latest_versions : list (string * VersionInfo))
    (keys_without_older_versions : gset string) s1 tr1 :
  get_object_versions fuel bucket prefix c s
  = Some (Return (latest_versions, keys_without_older_versions), s1, tr1) →
  ∃ s2 tr_restore s' tr_delete,
    restore_latest_versions strftime bucket latest_versions
      (default false dry_run) s1 = Some (Return tt, s2, tr_restore)
    ∧ (if default false delete_newer
       then delete_newer_versions bucket keys_without_older_versions
              (default false dry_run) s2 = Some (Return tt, s', tr_delete)
       else s' = s2 ∧ tr_delete = [])
    ∧ let tr :=
        Log INFO "Starting recovery process for prefix '%s' up to time %sZ"
          [AStr prefix; AStr (isoformat c)]
        :: tr1 ++ tr_restore ++ tr_delete
           ++ [Log INFO "Recovery process completed." []] in
      recover_objects strftime isoformat fuel bucket prefix c
        dry_run delete_newer s = Some (Return tt, s', tr)
      ∧ copy_requests tr
        = (if default false dry_run then []
           else map (copy_of bucket) latest_versions)
      ∧ delete_requests tr
        = (if default false delete_newer && negb (default false dry_run)
           then elements keys_without_older_versions else []).
Proof.
  intros Hgv.
  destruct (get_object_versions_spec _ _ _ _ _ _ _ _ Hgv) as (Hc & Hd & _).
  destruct (restore_total strftime bucket latest_versions
              (default false dry_run) s1) as (s2 & tr_r & Hr & Hrc & Hrd).
  unfold recover_objects.
  rewrite bind_run, log_run, bind_run, Hgv, bind_run, Hr.
  destruct (default false delete_newer) eqn:Hdel.
  - destruct (delete_total bucket keys_without_older_versions
                (default false dry_run) s2) as (s' & tr_d & Hdl & Hdc & Hdd).
    exists s2, tr_r, s', tr_d. split; [done|]. split; [done|].
    rewrite bind_run, Hdl, log_run. cbn [app]. split_and!.
    + done.
    + rewrite copy_requests_cons, !copy_requests_app, Hc, Hrc, Hdc.
      simpl. by rewrite !app_nil_r.
    + rewrite delete_requests_cons, !delete_requests_app, Hd, Hrd, Hdd.
      simpl. rewrite !app_nil_r. by destruct (default false dry_run).
  - exists s2, tr_r, s2, []. split; [done|]. split; [done|].
    rewrite bind_run. cbn [mret M_ret]. rewrite log_run. cbn [app].
    split_and!.
    + done.
    + rewrite copy_requests_cons, !copy_requests_app, Hc, Hrc.
      simpl. by rewrite !app_nil_r.
    + rewrite delete_requests_cons, !delete_requests_app, Hd, Hrd. done.
Qed.

(** C9. Every page is requested with [max_keys=999] under the prefix, the
    first with empty markers and each next one with the markers of the
    page before, and the loop goes on exactly while the pages are
    truncated.  So when the [n]-th answer of the service along that
    chain of requests is a page that is not truncated, every run with
    more than [n] units of fuel returns the same plan, after at most
    [n + 1] requests. *)
Theorem pagination_terminates bucket prefix (c : Z) s n res :
  nth_response bucket prefix n "" "" s = Return res →
  is_truncated res = false →
  ∃ plan s' tr,
    (∀ fuel, n < fuel →
       get_object_versions fuel bucket prefix c s
       = Some (Return plan, s', tr))
    ∧ paginated prefix "" "" (list_requests tr)
    ∧ length (list_requests tr) ≤ S n.
Proof.
  intros Hn Hres.
  destruct (list_pages_terminates bucket prefix c n ([], ∅) "" "" s res
              Hn Hres) as (plan & s' & tr & Hlen & Hrun).
  assert (∀ fuel, n < fuel →
            get_object_versions fuel bucket prefix c s
            = Some (Return plan, s',
                    Log DEBUG "Starting to get object versions for prefix: %s"
                      [AStr prefix]
                    :: tr ++
                    [Log DEBUG "Finished getting object versions. Found %d latest versions and %d keys without older versions"
                       [AInt (Z.of_nat (length plan.1));
                        AInt (Z.of_nat (size plan.2))]])) as Hgv.
  { intros fuel Hf. unfold get_object_versions.
    by rewrite bind_run, log_run, bind_run, (Hrun fuel Hf), bind_run, log_run. }
  eexists _, _, _. split; [exact Hgv|].
  destruct (get_object_versions_spec _ _ _ _ _ _ _ _ (Hgv (S n) (Nat.lt_succ_diag_r n)))
    as (_ & _ & _ & Hp).
  split; [done|].
  by rewrite list_requests_cons, list_requests_app, app_nil_r.
Qed.
End Orchestration.

(** ** Properties of the recovery plan *)

Section PlanProperties.
Context {E St : Type}.
Implicit Types (s : St) (tr : list (Event E)) (bucket : Bucket E St)
  (lv : list (string * VersionInfo)) (orphans : gset string)
  (v u : ObjectVersion) (k : string) (c : Z).

Lemma returned_plan fuel bucket prefix c s lv orphans s' tr :
  get_object_versions fuel bucket prefix c s
  = Some (Return (lv, orphans), s', tr) →
  (lv, orphans) = scan c (observed_versions tr) ([], ∅).
Proof.
  intros Hgv.
  by destruct (get_object_versions_spec _ _ _ _ _ _ _ _ Hgv) as (_ & _ & ? & _).
Qed.

(** C1. When [get_object_versions] returns, every key of a record it was
    given is either a key of [latest_versions] and not in
    [keys_without_older_versions], or in [keys_without_older_versions]
    and not a key of [latest_versions]. *)
Theorem classification_total_exclusive fuel bucket prefix c s
    lv orphans s' tr k :
  get_object_versions fuel bucket prefix c s
  = Some (Return (lv, orphans), s', tr) →
  k ∈ key <$> observed_versions tr →
  (is_Some (dict_get lv k) ∧ k ∉ orphans)
  ∨ (dict_get lv k = None ∧ k ∈ orphans).
Proof.
  intros Hplan%returned_plan Hk.
  pose proof (scan_classification c (observed_versions tr) k Hk) as Hcl.
  by rewrite <- Hplan in Hcl.
Qed.

(** C2. For a key with a record at or before the cutoff, the entry
    returned for it has as [version_time] the greatest modification time
    at or before the cutoff among the records of that key, and any other
    run that is given the same records in another order returns an entry
    with the same [version_time]. *)
Theorem target_is_latest_before_cutoff fuel bucket prefix c s
    lv orphans s' tr v :
  get_object_versions fuel bucket prefix c s
  = Some (Return (lv, orphans), s', tr) →
  v ∈ observed_versions tr →
  (time_of v ≤ c)%Z →
  ∃ info,
    dict_get lv (key v) = Some info
    ∧ max_time_at_or_before c (key v) (observed_versions tr)
      = Some (vi_version_time info)
    ∧ ∀ fuel2 bucket2 prefix2 s2 lv2 orphans2 s2' tr2,
        get_object_versions fuel2 bucket2 prefix2 c s2
        = Some (Return (lv2, orphans2), s2', tr2) →
        observed_versions tr2 ≡ₚ observed_versions tr →
        ∃ info2, dict_get lv2 (key v) = Some info2
                 ∧ vi_version_time info2 = vi_version_time info.
Proof.
  intros Hplan%returned_plan Hv Hc.
  destruct (scan_entry_time c (observed_versions tr) v Hv Hc)
    as (info & Hinfo & Hmax).
  rewrite <- Hplan in Hinfo. exists info. split_and!; [done..|].
  intros fuel2 bucket2 prefix2 s2 lv2 orphans2 s2' tr2
    Hplan2%returned_plan Hperm.
  assert (v ∈ observed_versions tr2) as Hv2 by by rewrite Hperm.
  destruct (scan_entry_time c (observed_versions tr2) v Hv2 Hc)
    as (info2 & Hinfo2 & Hmax2).
  rewrite <- Hplan2 in Hinfo2. exists info2. split; [done|].
  rewrite (max_time_perm c (key v) _ _ Hperm), Hmax in Hmax2. congruence.
Qed.

(** C3. A key of a record the run was given is in the returned
    [keys_without_older_versions] exactly when none of its records has a
    modification time at or before the cutoff; a record whose time is the
    cutoff itself keeps its key out. *)
Theorem orphan_iff_no_version_before_cutoff fuel bucket prefix c s
    lv orphans s' tr k :
  get_object_versions fuel bucket prefix c s
  = Some (Return (lv, orphans), s', tr) →
  k ∈ key <$> observed_versions tr →
  (k ∈ orphans ↔
     ∀ v, v ∈ observed_versions tr → key v = k → ¬ (time_of v ≤ c)%Z)
  ∧ ∀ v, v ∈ observed_versions tr → key v = k → time_of v = c →
         k ∉ orphans.
Proof.
  intros Hplan%returned_plan (v0 & -> & Hv0)%list_elem_of_fmap.
  pose proof (scan_orphans c (observed_versions tr) (key v0)) as Ho.
  rewrite <- Hplan in Ho. simpl in Ho. split.
  - rewrite Ho. split.
    + intros [_ Hall] v Hv Hk. specialize (Hall v Hv Hk). lia.
    + intros Hall. split; [by exists v0|].
      intros v Hv Hk. specialize (Hall v Hv Hk). lia.
  - intros v Hv Hk Heq [_ Hall]%Ho. specialize (Hall v Hv Hk). lia.
Qed.

(** A key that is not a key of any record is never in the set. *)
Lemma orphans_observed fuel bucket prefix c s lv orphans s' tr k :
  get_object_versions fuel bucket prefix c s
  = Some (Return (lv, orphans), s', tr) →
  k ∈ orphans → k ∈ key <$> observed_versions tr.
Proof.
  intros Hplan%returned_plan Hk.
  pose proof (scan_orphans c (observed_versions tr) k) as Ho.
  rewrite <- Hplan in Ho. apply Ho in Hk as [(v & Hv & <-) _].
  apply list_elem_of_fmap. by exists v.
Qed.

(** C4, as the program has it.  Of the records of one key with the
    greatest modification time at or before the cutoff, the one that
    arrives first is recorded: a record is the entry of its key when the
    records of the key before it are strictly older (or after the cutoff)
    and those after it are not newer (or after the cutoff).  A later
    record with the same time does not replace it. *)
Theorem equal_times_first_wins fuel bucket prefix c s lv orphans s' tr
    (l1 l2 : list ObjectVersion) v :
  get_object_versions fuel bucket prefix c s
  = Some (Return (lv, orphans), s', tr) →
  observed_versions tr = l1 ++ v :: l2 →
  (time_of v ≤ c)%Z →
  (∀ u, u ∈ l1 → key u = key v → (time_of u ≤ c)%Z →
        (time_of u < time_of v)%Z) →
  (∀ u, u ∈ l2 → key u = key v → (time_of u ≤ c)%Z →
        (time_of u ≤ time_of v)%Z) →
  dict_get lv (key v) = Some (info_of v).
Proof.
  intros Hplan%returned_plan Hobs Hc H1 H2.
  pose proof (scan_first_max c l1 v l2 Hc H1 H2) as Hfirst.
  by rewrite <- Hobs, <- Hplan in Hfirst.
Qed.

(** C10. In the loop over the records, once a key has an entry in
    [latest_versions] it is out of [keys_without_older_versions]; and
    whatever records follow, the key still has an entry, with a
    [version_time] that is no smaller, and is still out of the set. *)
Theorem entry_irrevocable c (before after : list ObjectVersion)
    (w1 w1' w2 w2' : St) (t1 t2 : list (Event E)) lv1 o1 lv2 o2 k i1 :
  for_fold before (process_version c) ([], ∅) w1
  = Some (Return (lv1, o1), w1', t1) →
  for_fold after (process_version c) (lv1, o1) w2
  = Some (Return (lv2, o2), w2', t2) →
  dict_get lv1 k = Some i1 →
  (k ∉ o1)
  ∧ ∃ i2, dict_get lv2 k = Some i2
          ∧ (vi_version_time i1 ≤ vi_version_time i2)%Z
          ∧ k ∉ o2.
Proof.
  intros Hb Ha Hk.
  destruct (for_fold_run (E:=E) c before ([], ∅) w1) as (t & Hb' & _).
  rewrite Hb' in Hb. injection Hb as Hb _ _.
  destruct (for_fold_run (E:=E) c after (lv1, o1) w2) as (t' & Ha' & _).
  rewrite Ha' in Ha. injection Ha as Ha _ _.
  assert (k ∉ o1) as Ho1.
  { pose proof (scan_orphans c before k) as Ho.
    pose proof (scan_entry_origin c before k i1) as Horigin.
    rewrite Hb in Ho, Horigin. simpl in Ho, Horigin.
    intros [_ Hall]%Ho. destruct (Horigin Hk) as (u & Hu & Hku & Hcu & _).
    specialize (Hall u Hu Hku). lia. }
  split; [done|].
  destruct (scan_entry_mono c after lv1 o1 k i1 Hk Ho1) as (i2 & H2 & Hle & Ho2).
  rewrite Ha in H2, Ho2. by exists i2.
Qed.
End PlanProperties.

(** ** The properties on the test data *)

Lemma classification_total_exclusive_witness :
  (is_Some (dict_get test_latest_versions "object1")
   ∧ "object1" ∉ test_keys_without_older_versions)
  ∨ (dict_get test_latest_versions "object1" = None
     ∧ "object1" ∈ test_keys_without_older_versions).
Proof.
  apply (classification_total_exclusive 1 (mock_bucket []) "prefix/"
           1633620600 [test_page] test_latest_versions
           test_keys_without_older_versions [] test_trace "object1").
  - vm_compute. reflexivity.
  - vm_compute. left.
Defined.

Lemma target_is_latest_before_cutoff_witness :
  ∃ info,
    dict_get test_latest_versions (key test_object1_v1) = Some info
    ∧ max_time_at_or_before 1633620600 (key test_object1_v1)
        (observed_versions test_trace) = Some (vi_version_time info)
    ∧ ∀ fuel2 (bucket2 : Bucket string (list ListResult)) prefix2 s2
        lv2 orphans2 s2' tr2,
        get_object_versions fuel2 bucket2 prefix2 1633620600 s2
        = Some (Return (lv2, orphans2), s2', tr2) →
        observed_versions tr2 ≡ₚ observed_versions test_trace →
        ∃ info2, dict_get lv2 (key test_object1_v1) = Some info2
                 ∧ vi_version_time info2 = vi_version_time info.
Proof.
  apply (target_is_latest_before_cutoff 1 (mock_bucket []) "prefix/"
           1633620600 [test_page] test_latest_versions
           test_keys_without_older_versions [] test_trace test_object1_v1).
  - vm_compute. reflexivity.
  - vm_compute. left.
  - vm_compute. discriminate.
Defined.

Lemma orphan_iff_no_version_before_cutoff_witness :
  ("object1" ∈ test_keys_without_older_versions_1400 ↔
     ∀ v, v ∈ observed_versions test_trace_1400 → key v = "object1" →
          ¬ (time_of v ≤ 1633615200)%Z)
  ∧ ∀ v, v ∈ observed_versions test_trace_1400 → key v = "object1" →
         time_of v = 1633615200%Z →
         "object1" ∉ test_keys_without_older_versions_1400.
Proof.
  apply (orphan_iff_no_version_before_cutoff 1 (mock_bucket []) "prefix/"
           1633615200 [test_page] test_latest_versions_1400
           test_keys_without_older_versions_1400 [] test_trace_1400
           "object1").
  - vm_compute. reflexivity.
  - vm_compute. left.
Defined.

Lemma equal_times_first_wins_witness :
  dict_get tie_latest_versions (key tie_first) = Some (info_of tie_first).
Proof.
  apply (equal_times_first_wins 1 (mock_bucket []) "p/" 10 [tie_page]
           tie_latest_versions ∅ [] tie_trace [] [tie_second] tie_first).
  - vm_compute. reflexivity.
  - vm_compute. reflexivity.
  - vm_compute. discriminate.
  - intros u Hu. by apply elem_of_nil in Hu.
  - intros u Hu. apply list_elem_of_singleton in Hu. subst u.
    intros _ _. vm_compute. discriminate.
Defined.

(** On the tie the program keeps ["v1"], the record that came first. *)
Lemma last_write_wins_fails : ¬ last_write_wins.
Proof.
  intros Hclaim.
  specialize (Hclaim 1 (mock_bucket []) "p/" 10%Z [tie_page]
                tie_latest_versions ∅ [] tie_trace
                [] tie_first [] tie_second []).
  assert (dict_get tie_latest_versions (key tie_second)
          = Some (info_of tie_second)) as Habs.
  { apply Hclaim.
    - vm_compute. reflexivity.
    - vm_compute. reflexivity.
    - reflexivity.
    - reflexivity.
    - vm_compute. discriminate. }
  vm_compute in Habs. discriminate Habs.
Qed.

Lemma listing_failure_propagates_witness :
  @Raise string (list (string * VersionInfo) * gset string) "listing failed"
  = Raise "listing failed"
  ∧ (∃ reqs,
       list_requests broken_trace
       = reqs ++ [("p/", "b", "v1", 999%Z, Raise "listing failed")]
       ∧ Forall answered reqs)
  ∧ ∃ tr',
      recover_objects mock_strftime mock_isoformat 2 (mock_bucket []) "p/" 10
        None (Some true) [first_page]
      = Some (Raise "listing failed", [], tr')
      ∧ copy_requests tr' = [] ∧ delete_requests tr' = [].
Proof.
  apply (listing_failure_propagates mock_strftime mock_isoformat 2
           (mock_bucket []) "p/" 10 None (Some true) [first_page]
           (Raise "listing failed") [] broken_trace
           "p/" "b" "v1" 999%Z "listing failed").
  - vm_compute. reflexivity.
  - vm_compute. right. left.
Defined.

Lemma delete_phase_opt_in_witness :
  ∃ s2 tr_restore s' tr_delete,
    restore_latest_versions mock_strftime (mock_bucket [])
      test_latest_versions_1400 (default false None) []
    = Some (Return tt, s2, tr_restore)
    ∧ (if default false None
       then delete_newer_versions (mock_bucket [])
              test_keys_without_older_versions_1400 (default false None) s2
            = Some (Return tt, s', tr_delete)
       else s' = s2 ∧ tr_delete = [])
    ∧ let tr :=
        Log INFO "Starting recovery process for prefix '%s' up to time %sZ"
          [AStr "prefix/"; AStr (mock_isoformat 1633615200)]
        :: test_trace_1400 ++ tr_restore ++ tr_delete
           ++ [Log INFO "Recovery process completed." []] in
      recover_objects mock_strftime mock_isoformat 1 (mock_bucket [])
        "prefix/" 1633615200 None None [test_page]
      = Some (Return tt, s', tr)
      ∧ copy_requests tr
        = (if default false None then []
           else map (copy_of (mock_bucket [])) test_latest_versions_1400)
      ∧ delete_requests tr
        = (if default false None && negb (default false None)
           then elements test_keys_without_older_versions_1400 else []).
Proof.
  apply (delete_phase_opt_in mock_strftime mock_isoformat 1 (mock_bucket [])
           "prefix/" 1633615200 None None [test_page]
           test_latest_versions_1400 test_keys_without_older_versions_1400
           [] test_trace_1400).
  vm_compute. reflexivity.
Defined.

Lemma pagination_terminates_witness :
  ∃ plan s' tr,
    (∀ fuel, 1 < fuel →
       get_object_versions (E:=string) fuel (mock_bucket []) "p/" 10 two_pages
       = Some (Return plan, s', tr))
    ∧ paginated "p/" "" "" (list_requests tr)
    ∧ length (list_requests tr) ≤ 2.
Proof.
  apply (pagination_terminates (mock_bucket []) "p/" 10 two_pages 1 last_page).
  - vm_compute. reflexivity.
  - reflexivity.
Defined.

Lemma entry_irrevocable_witness :
  ("a" ∉ (∅ : gset string))
  ∧ ∃ i2, dict_get [("a", mkVersionInfo "v3" 7 7)] "a" = Some i2
          ∧ (vi_version_time (mkVersionInfo "v1" 5 5) ≤ vi_version_time i2)%Z
          ∧ "a" ∉ (∅ : gset string).
Proof.
  apply (entry_irrevocable (E:=string) (St:=unit) 10 seen_so_far still_to_come
           tt tt tt tt seen_so_far_trace still_to_come_trace
           [("a", mkVersionInfo "v1" 5 5)] ∅
           [("a", mkVersionInfo "v3" 7 7)] ∅ "a" (mkVersionInfo "v1" 5 5)).
  - vm_compute. reflexivity.
  - vm_compute. reflexivity.
  - vm_compute. reflexivity.
Defined.

(** ** Scenarios of the unit tests *)

(** Cutoff 15:30: [object1] goes back to ["v2"], [object2] to ["v1"], and
    [object3] has no version old enough. *)
Example test_cutoff_1530 :
  test_run 1633620600
  = Some (Return (test_latest_versions, test_keys_without_older_versions),
          [], test_trace).
Proof. vm_compute. reflexivity. Qed.

(** Cutoff 14:00, the time of the first version of [object1]. *)
Example test_cutoff_1400 :
  test_run 1633615200
  = Some (Return (test_latest_versions_1400,
                  test_keys_without_older_versions_1400),
          [], test_trace_1400).
Proof. vm_compute. reflexivity. Qed.

(** Cutoff 13:00, before every version: nothing to restore. *)
Example test_cutoff_1300 :
  ∃ tr, test_run 1633611600
        = Some (Return ([], {["object1"; "object2"; "object3"]}), [], tr).
Proof. eexists. vm_compute. reflexivity. Qed.

(** Cutoff 17:00, after every version: each key goes to its last version. *)
Example test_cutoff_1700 :
  ∃ tr, test_run 1633626000
        = Some (Return ([ ("object1", mkVersionInfo "v3" 1633622400 1633622400);
                          ("object2", mkVersionInfo "v2" 1633622400 1633622400);
                          ("object3", mkVersionInfo "v1" 1633622400 1633622400) ],
                        ∅), [], tr).
Proof. eexists. vm_compute. reflexivity. Qed.

(** A key can be in the set in the middle of the scan and leave it later:
    the newer record of ["a"] comes first, the older one on the next page. *)
Example orphan_status_is_tentative :
  (∃ tr, for_fold (E:=string) (versions first_page) (process_version 10)
           ([], ∅) tt
         = Some (Return ([], {["a"; "b"]}), tt, tr))
  ∧ (∃ tr, get_object_versions (E:=string) 2 (mock_bucket []) "p/" 10 two_pages
           = Some (Return ([("a", mkVersionInfo "v1" 5 5)], {["b"]}), [], tr)).
Proof. split; eexists; vm_compute; reflexivity. Qed.

(** The copy of [object1] fails; [object2] is restored all the same. *)
Example restore_goes_on_after_failure :
  ∃ tr,
    restore_latest_versions mock_strftime (mock_bucket ["object1"])
      test_latest_versions false []
    = Some (Return tt, [], tr)
    ∧ copy_requests tr
      = [ ("bucket", "object1", "object1", "v2");
          ("bucket", "object2", "object2", "v1") ]
    ∧ CopyObject "bucket" "object1" "object1" "v2" (Raise "copy failed") ∈ tr
    ∧ CopyObject "bucket" "object2" "object2" "v1" (Return tt) ∈ tr.
Proof.
  eexists. split; [vm_compute; reflexivity|].
  split; [reflexivity|]. split; [do 3 right; left | do 8 right; left].
Qed.


(** ** Keys of the mapping *)

Section Keys.
Context {V : Type}.
Implicit Types (d : list (string * V)) (k : string) (v : V).

Lemma dict_set_keys d k v :
  (dict_set d k v).*1 = if decide (k ∈ d.*1) then d.*1 else d.*1 ++ [k].
Proof.
  induction d as [|[k' v'] d IH].
  - case_decide as Hk; [by apply elem_of_nil in Hk | done].
  - cbn [dict_set]. destruct (decide (k' = k)) as [->|Hne].
    + rewrite decide_True; [done | left].
    + rewrite fmap_cons, IH. cbn [fst fmap list_fmap].
      destruct (decide (k ∈ d.*1)) as [Hin|Hnin].
      * rewrite decide_True; [done | by right].
      * rewrite decide_False; [done|].
        intros [?|?]%elem_of_cons; [congruence | done].
Qed.

Lemma dict_set_NoDup d k v : NoDup d.*1 → NoDup (dict_set d k v).*1.
Proof.
  intros Hd. rewrite dict_set_keys. case_decide as Hk; [done|].
  apply NoDup_app. split_and!; [done| |apply NoDup_singleton].
  intros x Hx ->%list_elem_of_singleton. done.
Qed.

Lemma dict_elem_get d k v : NoDup d.*1 → (k, v) ∈ d → dict_get d k = Some v.
Proof.
  induction d as [|[k' v'] d IH]; simpl; [by intros _ ?%elem_of_nil|].
  intros [Hk' Hd]%NoDup_cons [[= -> ->]|Hin]%elem_of_cons.
  - by rewrite decide_True.
  - rewrite decide_False; [by apply IH|].
    intros ->. apply Hk'. apply list_elem_of_fmap. by exists (k, v).
Qed.
End Keys.

Section MorePlan.
Implicit Types (lv : list (string * VersionInfo)) (orphans : gset string)
  (v u : ObjectVersion) (vs : list ObjectVersion) (k : string) (c : Z).

Lemma scan_NoDup c vs : NoDup (scan c vs ([], ∅)).1.*1.
Proof.
  induction vs as [|v vs IH] using rev_ind; [apply NoDup_nil_2|].
  rewrite scan_snoc. destruct (scan c vs ([], ∅)) as [lv o]. simpl in IH.
  destruct (plan_step_cases c lv o v)
    as [(_ & _ & ->)|[(_ & j & _ & _ & ->)|[(_ & j & _ & _ & ->)|
        [(_ & _ & ->)|(_ & _ & ->)]]]]; simpl;
    try done; by apply dict_set_NoDup.
Qed.

(** A record that was already seen changes nothing when it comes again. *)
Lemma scan_seen_again c vs v :
  v ∈ vs → plan_step c (scan c vs ([], ∅)) v = scan c vs ([], ∅).
Proof.
  intros Hv.
  pose proof (scan_entry_covers c vs v Hv) as Hcov.
  pose proof (scan_orphans c vs (key v)) as Ho.
  pose proof (λ u, scan_entry_covers c vs u) as Hall.
  destruct (scan c vs ([], ∅)) as [lv o]. simpl in Hcov, Ho, Hall.
  destruct (plan_step_cases c lv o v)
    as [(Hc & Hn & _)|[(Hc & j & Hj & Hlt & _)|[(Hc & j & _ & _ & ->)|
        [(Hc & Hn & ->)|(_ & _ & ->)]]]]; [| | | |done].
  - destruct (Hcov Hc) as (i & Hi & _). congruence.
  - destruct (Hcov Hc) as (i & Hi & Hle). assert (i = j) as -> by congruence.
    lia.
  - f_equal. apply difference_disjoint_L, disjoint_singleton_r.
    intros [_ Hgt]%Ho. specialize (Hgt v Hv eq_refl). lia.
  - f_equal. rewrite (union_comm_L o).
    apply subseteq_union_1_L, singleton_subseteq_l, Ho.
    split; [by exists v|]. intros u Hu Hku.
    destruct (decide (time_of u ≤ c)%Z) as [Hle|]; [|lia].
    destruct (Hall u Hu Hle) as (i & Hi & _). congruence.
Qed.
End MorePlan.

(** ** What a whole run sends to the bucket *)

Section Requests.
Context {E St : Type}.
Implicit Types (s : St) (tr : list (Event E)) (bucket : Bucket E St).

Lemma observed_from_requests tr :
  observed_versions tr
  = list_requests tr ≫= λ q, match q.2 with
                              | Return r => versions r
                              | Raise _ => []
                              end.
Proof.
  induction tr as [|ev tr IH]; [done|].
  rewrite observed_versions_cons, list_requests_cons, bind_app, IH.
  f_equal. destruct ev as [| |? ? ? ? [r|e]| |]; simpl; by rewrite ?app_nil_r.
Qed.

Lemma list_pages_requests_under fuel bucket prefix (c : Z) st km vm s
    out s' tr :
  list_pages fuel bucket prefix c st km vm s = Some (out, s', tr) →
  Forall (request_under prefix) (list_requests tr).
Proof.
  revert st km vm s out s' tr.
  induction fuel as [|fuel IH]; intros st km vm s out s' tr; [done|].
  simpl. rewrite bind_run, log_run, bind_run. unfold request at 1.
  destruct (list_object_versions bucket prefix km vm 999 s) as [[res|e] s1].
  - rewrite bind_run.
    destruct (for_fold_run (E:=E) c (versions res) st s1) as (t & -> & Hl).
    pose proof (logs_list_requests t Hl) as Hll.
    destruct (is_truncated res); simpl.
    + destruct (list_pages fuel bucket prefix c (scan c (versions res) st)
                  (next_key_marker res) (next_versionid_marker res) s1)
        as [[[out2 s2] t2]|] eqn:Hrec; [|done].
      intros [= <- <- <-]. apply IH in Hrec.
      rewrite !list_requests_cons, list_requests_app, Hll. simpl.
      by constructor.
    + intros [= <- <- <-].
      rewrite !list_requests_cons, list_requests_app, Hll. simpl.
      by repeat constructor.
  - intros [= <- <- <-]. rewrite !list_requests_cons. simpl.
    by repeat constructor.
Qed.

Lemma get_object_versions_requests_under fuel bucket prefix (c : Z) s
    out s' tr :
  get_object_versions fuel bucket prefix c s = Some (out, s', tr) →
  Forall (request_under prefix) (list_requests tr).
Proof.
  unfold get_object_versions. rewrite bind_run, log_run, bind_run.
  destruct (list_pages fuel bucket prefix c ([], ∅) "" "" s)
    as [[[[plan|e] s1] t1]|] eqn:Hlp; [| |done];
    apply list_pages_requests_under in Hlp.
  - rewrite bind_run, log_run. simpl. intros [= <- <- <-].
    by rewrite list_requests_cons, list_requests_app, app_nil_r.
  - intros [= <- <- <-]. by rewrite list_requests_cons.
Qed.
End Requests.

Section Phases.
Context {E St : Type}.
Variables strftime isoformat : Z → string.
Implicit Types (s : St) (tr : list (Event E)) (bucket : Bucket E St).

Lemma restore_phase bucket lv (dry_run : bool) s :
  ∃ s' tr,
    restore_latest_versions strftime bucket lv dry_run s
    = Some (Return tt, s', tr)
    ∧ list_requests tr = []
    ∧ copy_requests tr = (if dry_run then [] else map (copy_of bucket) lv)
    ∧ delete_requests tr = []
    ∧ (dry_run = true → s' = s).
Proof.
  destruct dry_run.
  - exists s. eexists. split; [apply restore_dry_run|].
    destruct (dry_run_lines (E:=E)
                (λ item, restore_action strftime item.1 item.2) lv)
      as (Hl & Hc & Hd & _).
    by rewrite list_requests_cons, copy_requests_cons, delete_requests_cons,
      Hl, Hc, Hd.
  - destruct (restore_run strftime bucket lv s)
      as (s' & tr & ? & ? & ? & ? & _).
    by exists s', tr.
Qed.

Lemma delete_phase bucket orphans (dry_run : bool) s :
  ∃ s' tr,
    delete_newer_versions bucket orphans dry_run s = Some (Return tt, s', tr)
    ∧ list_requests tr = []
    ∧ copy_requests tr = []
    ∧ delete_requests tr = (if dry_run then [] else elements orphans)
    ∧ (dry_run = true → s' = s).
Proof.
  destruct dry_run.
  - exists s. eexists. split; [apply delete_dry_run|].
    destruct (dry_run_lines (E:=E) delete_action (elements orphans))
      as (Hl & Hc & Hd & _).
    by rewrite list_requests_cons, copy_requests_cons, delete_requests_cons,
      Hl, Hc, Hd.
  - destruct (delete_run bucket orphans s) as (s' & tr & ? & ? & ? & ? & _).
    by exists s', tr.
Qed.

(** The two ways a run of [recover_objects] can end. *)
Lemma recover_objects_inv fuel bucket prefix (c : Z)
    (dry_run delete_newer : option bool) s out s' tr :
  recover_objects strftime isoformat fuel bucket prefix c
    dry_run delete_newer s = Some (out, s', tr) →
  (∃ e tr1,
     get_object_versions fuel bucket prefix c s = Some (Raise e, s', tr1)
     ∧ out = Raise e
     ∧ list_requests tr = list_requests tr1
     ∧ copy_requests tr = [] ∧ delete_requests tr = [])
  ∨ (∃ lv orphans s1 tr1,
       get_object_versions fuel bucket prefix c s
       = Some (Return (lv, orphans), s1, tr1)
       ∧ out = Return tt
       ∧ list_requests tr = list_requests tr1
       ∧ copy_requests tr
         = (if default false dry_run then [] else map (copy_of bucket) lv)
       ∧ delete_requests tr
         = (if default false delete_newer && negb (default false dry_run)
            then elements orphans else [])
       ∧ (default false dry_run = true → s' = s1)).
Proof.
  unfold recover_objects. rewrite bind_run, log_run, bind_run.
  destruct (get_object_versions fuel bucket prefix c s)
    as [[[[[lv orphans]|e] s1] tr1]|] eqn:Hgv; [| |done].
  - destruct (get_object_versions_spec _ _ _ _ _ _ _ _ Hgv) as (Hc & Hd & _).
    destruct (restore_phase bucket lv (default false dry_run) s1)
      as (s2 & tr_r & Hr & Hrl & Hrc & Hrd & Hrs).
    rewrite bind_run, Hr, bind_run.
    destruct (default false delete_newer).
    + destruct (delete_phase bucket orphans (default false dry_run) s2)
        as (s3 & tr_d & Hdl & Hdll & Hdc & Hdd & Hds).
      rewrite Hdl, log_run. cbn [app]. intros [= <- <- <-].
      right. exists lv, orphans, s1, tr1. split_and!; try done.
      * rewrite list_requests_cons, !list_requests_app, Hrl, Hdll.
        simpl. by rewrite !app_nil_r.
      * rewrite copy_requests_cons, !copy_requests_app, Hc, Hrc, Hdc.
        simpl. by rewrite !app_nil_r.
      * rewrite delete_requests_cons, !delete_requests_app, Hd, Hrd, Hdd.
        simpl. rewrite !app_nil_r. by destruct (default false dry_run).
      * intros Hdry. by rewrite (Hds Hdry), (Hrs Hdry).
    + cbn [mret M_ret]. rewrite log_run. cbn [app]. intros [= <- <- <-].
      right. exists lv, orphans, s1, tr1. split_and!; try done.
      * rewrite list_requests_cons, !list_requests_app, Hrl.
        simpl. by rewrite !app_nil_r.
      * rewrite copy_requests_cons, !copy_requests_app, Hc, Hrc.
        simpl. by rewrite !app_nil_r.
      * by rewrite delete_requests_cons, !delete_requests_app, Hd, Hrd.
  - destruct (get_object_versions_spec _ _ _ _ _ _ _ _ Hgv) as (Hc & Hd & _).
    intros [= <- <- <-]. left. exists e, tr1. by split_and!.
Qed.
End Phases.

(** ** Further properties of the plan and of a run *)

Section Further.
Context {E St : Type}.
Implicit Types (s : St) (tr : list (Event E)) (bucket : Bucket E St)
  (lv : list (string * VersionInfo)) (orphans : gset string)
  (v u : ObjectVersion) (k : string) (c : Z).

Lemma scan_disjoint c (vs : list ObjectVersion) k :
  k ∈ (scan c vs ([], ∅)).2 → dict_get (scan c vs ([], ∅)).1 k = None.
Proof.
  intros [_ Hall]%scan_orphans.
  destruct (dict_get (scan c vs ([], ∅)).1 k) as [i|] eqn:Hi; [|done].
  destruct (scan_entry_origin c vs k i Hi) as (u & Hu & Hku & Hcu & _).
  specialize (Hall u Hu Hku). lia.
Qed.

(** X1. Whatever its outcome, [get_object_versions] only reads: it sends no
    [copy_object] and no [delete_object] request, and every listing request
    it sends is for the prefix it was given, with [max_keys=999]. *)
Theorem listing_is_read_only fuel bucket prefix c s out s' tr :
  get_object_versions fuel bucket prefix c s = Some (out, s', tr) →
  copy_requests tr = [] ∧ delete_requests tr = []
  ∧ Forall (request_under prefix) (list_requests tr).
Proof.
  intros Hgv.
  destruct (get_object_versions_spec _ _ _ _ _ _ _ _ Hgv) as (Hc & Hd & _).
  split_and!; [done..|]. by eapply get_object_versions_requests_under.
Qed.

(** X2. The returned mapping has one item per key, and every item is made
    of a record that was listed for that very key with a modification time
    at or before the cutoff: its version id, its time and its
    [last_modified] are those of that record. *)
Theorem planned_versions_are_genuine fuel bucket prefix c s lv orphans s' tr :
  get_object_versions fuel bucket prefix c s
  = Some (Return (lv, orphans), s', tr) →
  NoDup lv.*1
  ∧ ∀ k info, (k, info) ∈ lv →
      ∃ v, v ∈ observed_versions tr ∧ key v = k ∧ (time_of v ≤ c)%Z
           ∧ vi_versionid info = versionid v
           ∧ vi_version_time info = fromtimestamp (last_modified v)
           ∧ vi_last_modified_str info = last_modified v.
Proof.
  intros Hplan%returned_plan.
  pose proof (scan_NoDup c (observed_versions tr)) as Hnd.
  pose proof (scan_entry_origin c (observed_versions tr)) as Horigin.
  rewrite <- Hplan in Hnd, Horigin. simpl in Hnd, Horigin.
  split; [done|]. intros k info Hin.
  destruct (Horigin k info (dict_elem_get lv k info Hnd Hin))
    as (v & Hv & Hk & Hc & ->).
  by exists v.
Qed.

(** X5. The set of keys without older versions, and the set of keys that
    get an entry, do not depend on the order in which the records arrive. *)
Theorem classification_order_independent fuel bucket prefix c s
    lv orphans s' tr fuel2 bucket2 prefix2 s2 lv2 orphans2 s2' tr2 :
  get_object_versions fuel bucket prefix c s
  = Some (Return (lv, orphans), s', tr) →
  get_object_versions fuel2 bucket2 prefix2 c s2
  = Some (Return (lv2, orphans2), s2', tr2) →
  observed_versions tr2 ≡ₚ observed_versions tr →
  orphans2 = orphans
  ∧ ∀ k, is_Some (dict_get lv2 k) ↔ is_Some (dict_get lv k).
Proof.
  intros Hplan%returned_plan Hplan2%returned_plan Hperm.
  pose proof (scan_orphans c (observed_versions tr)) as Ho.
  pose proof (scan_orphans c (observed_versions tr2)) as Ho2.
  rewrite <- Hplan in Ho. rewrite <- Hplan2 in Ho2. simpl in Ho, Ho2.
  assert (∀ vs1 vs2 l1 l2 k,
            vs1 ≡ₚ vs2 →
            l1 = (scan c vs1 ([], ∅)).1 → l2 = (scan c vs2 ([], ∅)).1 →
            is_Some (dict_get l1 k) → is_Some (dict_get l2 k)) as Hdom.
  { intros vs1 vs2 l1 l2 k Hp -> -> [i Hi].
    destruct (scan_entry_origin c vs1 k i Hi) as (u & Hu & <- & Hcu & _).
    rewrite Hp in Hu.
    destruct (scan_entry_covers c vs2 u Hu Hcu) as (i' & Hi' & _).
    by exists i'. }
  split.
  - apply set_eq. intros k. rewrite Ho, Ho2.
    by setoid_rewrite Hperm.
  - intros k. split.
    + apply (Hdom (observed_versions tr2) (observed_versions tr));
        [done | by rewrite <- Hplan2 | by rewrite <- Hplan].
    + apply (Hdom (observed_versions tr) (observed_versions tr2));
        [done | by rewrite <- Hplan | by rewrite <- Hplan2].
Qed.

(** X6. A record that the service delivers a second time, anywhere after
    its first delivery, changes nothing in the plan. *)
Theorem redelivery_is_harmless fuel bucket prefix c s lv orphans s' tr
    fuel2 bucket2 prefix2 s2 lv2 orphans2 s2' tr2
    (l1 l2 l3 : list ObjectVersion) v :
  get_object_versions fuel bucket prefix c s
  = Some (Return (lv, orphans), s', tr) →
  get_object_versions fuel2 bucket2 prefix2 c s2
  = Some (Return (lv2, orphans2), s2', tr2) →
  observed_versions tr = l1 ++ v :: l2 ++ l3 →
  observed_versions tr2 = l1 ++ v :: l2 ++ v :: l3 →
  (lv2, orphans2) = (lv, orphans).
Proof.
  intros Hplan%returned_plan Hplan2%returned_plan Hobs Hobs2.
  rewrite Hplan, Hplan2, Hobs, Hobs2.
  replace (l1 ++ v :: l2 ++ l3) with ((l1 ++ v :: l2) ++ l3)
    by by rewrite <- app_assoc.
  replace (l1 ++ v :: l2 ++ v :: l3) with ((l1 ++ v :: l2) ++ v :: l3)
    by by rewrite <- app_assoc.
  rewrite (scan_app c (l1 ++ v :: l2) l3),
    (scan_app c (l1 ++ v :: l2) (v :: l3)).
  change (scan c (v :: l3) (scan c (l1 ++ v :: l2) ([], ∅)))
    with (scan c l3 (plan_step c (scan c (l1 ++ v :: l2) ([], ∅)) v)).
  rewrite scan_seen_again; [done|].
  apply elem_of_app. right. left.
Qed.

(** X7. With the same records, a later cutoff never adds a key to the set
    of keys without older versions, never drops an entry, and never moves
    an entry back in time. *)
Theorem later_cutoff_restores_more fuel bucket prefix c s lv orphans s' tr
    fuel2 bucket2 prefix2 c2 s2 lv2 orphans2 s2' tr2 :
  get_object_versions fuel bucket prefix c s
  = Some (Return (lv, orphans), s', tr) →
  get_object_versions fuel2 bucket2 prefix2 c2 s2
  = Some (Return (lv2, orphans2), s2', tr2) →
  observed_versions tr2 ≡ₚ observed_versions tr →
  (c ≤ c2)%Z →
  orphans2 ⊆ orphans
  ∧ ∀ k info, dict_get lv k = Some info →
      ∃ info2, dict_get lv2 k = Some info2
               ∧ (vi_version_time info ≤ vi_version_time info2)%Z.
Proof.
  intros Hplan%returned_plan Hplan2%returned_plan Hperm Hle.
  pose proof (scan_orphans c (observed_versions tr)) as Ho.
  pose proof (scan_orphans c2 (observed_versions tr2)) as Ho2.
  pose proof (scan_entry_origin c (observed_versions tr)) as Horigin.
  pose proof (λ u, scan_entry_covers c2 (observed_versions tr2) u) as Hcov.
  rewrite <- Hplan in Ho, Horigin. rewrite <- Hplan2 in Ho2, Hcov.
  simpl in Ho, Ho2, Horigin, Hcov. split.
  - intros k [(u & Hu & Hku) Hall]%Ho2. apply Ho. split.
    + exists u. by rewrite <- Hperm.
    + intros w Hw Hkw. rewrite <- Hperm in Hw. specialize (Hall w Hw Hkw). lia.
  - intros k info (u & Hu & <- & Hcu & ->)%Horigin.
    rewrite <- Hperm in Hu.
    destruct (Hcov u Hu) as (info2 & Hinfo2 & Hle2); [lia|].
    exists info2. split; [done|]. simpl. unfold time_of in Hle2. lia.
Qed.

(** X8. A cutoff before every record: nothing is to be restored, and every
    key that was listed is in the set. *)
Theorem cutoff_before_everything fuel bucket prefix c s lv orphans s' tr :
  get_object_versions fuel bucket prefix c s
  = Some (Return (lv, orphans), s', tr) →
  (∀ v, v ∈ observed_versions tr → (c < time_of v)%Z) →
  lv = [] ∧ ∀ k, k ∈ orphans ↔ k ∈ key <$> observed_versions tr.
Proof.
  intros Hplan%returned_plan Hall.
  pose proof (scan_orphans c (observed_versions tr)) as Ho.
  pose proof (scan_entry_origin c (observed_versions tr)) as Horigin.
  rewrite <- Hplan in Ho, Horigin. simpl in Ho, Horigin. split.
  - destruct lv as [|[k info] lv]; [done|].
    destruct (Horigin k info) as (u & Hu & _ & Hcu & _).
    { simpl. by rewrite decide_True. }
    specialize (Hall u Hu). lia.
  - intros k. rewrite Ho, list_elem_of_fmap. split.
    + intros [(u & Hu & <-) _]. by exists u.
    + intros (u & -> & Hu). split; [by exists u | auto].
Qed.

(** X9. A cutoff at or after every record: no key is in the set, and every
    key that was listed has an entry. *)
Theorem cutoff_after_everything fuel bucket prefix c s lv orphans s' tr :
  get_object_versions fuel bucket prefix c s
  = Some (Return (lv, orphans), s', tr) →
  (∀ v, v ∈ observed_versions tr → (time_of v ≤ c)%Z) →
  orphans = ∅
  ∧ ∀ k, k ∈ key <$> observed_versions tr → is_Some (dict_get lv k).
Proof.
  intros Hplan%returned_plan Hall.
  pose proof (scan_orphans c (observed_versions tr)) as Ho.
  pose proof (λ u, scan_entry_covers c (observed_versions tr) u) as Hcov.
  rewrite <- Hplan in Ho, Hcov. simpl in Ho, Hcov. split.
  - apply set_eq. intros k. rewrite Ho. split; [|by intros ?%not_elem_of_empty].
    intros [(u & Hu & Hku) Hgt]. specialize (Hall u Hu).
    specialize (Hgt u Hu Hku). lia.
  - intros k (u & -> & Hu)%list_elem_of_fmap.
    destruct (Hcov u Hu (Hall u Hu)) as (i & Hi & _). by exists i.
Qed.

(** X10. The plan depends on the records and their order only, not on how
    the service cuts them into pages (nor on the prefix, the markers or
    the bucket they came from). *)
Theorem page_boundaries_do_not_matter fuel bucket prefix c s lv orphans s' tr
    fuel2 bucket2 prefix2 s2 lv2 orphans2 s2' tr2 :
  get_object_versions fuel bucket prefix c s
  = Some (Return (lv, orphans), s', tr) →
  get_object_versions fuel2 bucket2 prefix2 c s2
  = Some (Return (lv2, orphans2), s2', tr2) →
  observed_versions tr2 = observed_versions tr →
  (lv2, orphans2) = (lv, orphans).
Proof.
  intros Hplan%returned_plan Hplan2%returned_plan Hobs.
  by rewrite Hplan, Hplan2, Hobs.
Qed.
End Further.

Section RunProperties.
Context {E St : Type}.
Variables strftime isoformat : Z → string.
Implicit Types (s : St) (tr : list (Event E)) (bucket : Bucket E St)
  (k : string) (c : Z).

Lemma copied_keys_of_plan bucket (lv : list (string * VersionInfo)) tr :
  copy_requests tr = map (copy_of bucket) lv → copied_keys tr = lv.*1.
Proof.
  unfold copied_keys. intros ->. induction lv as [|item lv IH]; [done|].
  simpl. f_equal. apply IH.
Qed.

Lemma same_requests_same_records (tr tr1 : list (Event E)) :
  list_requests tr = list_requests tr1 →
  observed_versions tr = observed_versions tr1.
Proof. intros Hl. by rewrite !observed_from_requests, Hl. Qed.

(** X3. A full recovery (not a dry run, deletion enabled) that comes back
    acts exactly once on every key that was listed, and on no other key:
    the keys it asks to copy and the keys it asks to delete are all
    different, and together they are the keys of the records listed. *)
Theorem full_recovery_acts_once fuel bucket prefix c
    (dry_run delete_newer : option bool) s s' tr :
  default false dry_run = false →
  default false delete_newer = true →
  recover_objects strftime isoformat fuel bucket prefix c
    dry_run delete_newer s = Some (Return tt, s', tr) →
  NoDup (copied_keys tr ++ delete_requests tr)
  ∧ ∀ k, k ∈ copied_keys tr ++ delete_requests tr
         ↔ k ∈ key <$> observed_versions tr.
Proof.
  intros Hdry Hdel Hrun.
  destruct (recover_objects_inv _ _ _ _ _ _ _ _ _ _ _ _ Hrun)
    as [(e & tr1 & _ & [=] & _)
       |(lv & orphans & s1 & tr1 & Hgv & _ & Hl & Hc & Hd & _)].
  rewrite Hdry in Hc. rewrite Hdel, Hdry in Hd. simpl in Hd.
  rewrite (copied_keys_of_plan bucket lv tr Hc), Hd,
    (same_requests_same_records tr tr1 Hl).
  destruct (get_object_versions_spec _ _ _ _ _ _ _ _ Hgv) as (_ & _ & Hplan & _).
  pose proof (scan_NoDup c (observed_versions tr1)) as Hnd.
  pose proof (scan_classification c (observed_versions tr1)) as Hcl.
  pose proof (scan_orphans c (observed_versions tr1)) as Ho.
  pose proof (scan_entry_origin c (observed_versions tr1)) as Horigin.
  pose proof (scan_disjoint c (observed_versions tr1)) as Hdis.
  rewrite <- Hplan in Hnd, Hcl, Ho, Horigin, Hdis.
  simpl in Hnd, Hcl, Ho, Horigin, Hdis. split.
  - apply NoDup_app. split_and!; [done| |apply NoDup_elements].
    intros k Hk Hk'%elem_of_elements%Hdis.
    by apply dict_get_None_keys in Hk'.
  - intros k. rewrite elem_of_app, elem_of_elements. split.
    + intros [Hk|Hk].
      * destruct (dict_get lv k) as [i|] eqn:Hi;
          [|by apply dict_get_None_keys in Hi].
        destruct (Horigin k i Hi) as (u & Hu & <- & _).
        apply list_elem_of_fmap. by exists u.
      * apply Ho in Hk as [(u & Hu & <-) _].
        apply list_elem_of_fmap. by exists u.
    + intros [[[i Hi] _]|[_ Hk]]%Hcl; [left | by right].
      destruct (decide (k ∈ lv.*1)) as [|Hn]; [done|].
      apply dict_get_None_keys in Hn. congruence.
Qed.

(** X4. Whatever the flags and the outcome, every [copy_object] request of
    a run copies a key onto itself within the bucket, at the version id of
    a record that was listed for that key with a time at or before the
    cutoff; and every [delete_object] request is for a key that was listed
    and all of whose listed records are after the cutoff. *)
Theorem requests_are_justified fuel bucket prefix c
    (dry_run delete_newer : option bool) s out s' tr :
  recover_objects strftime isoformat fuel bucket prefix c
    dry_run delete_newer s = Some (out, s', tr) →
  (∀ b k k' vid, (b, k, k', vid) ∈ copy_requests tr →
     b = bucket_name bucket ∧ k' = k
     ∧ ∃ v, v ∈ observed_versions tr ∧ key v = k ∧ versionid v = vid
            ∧ (time_of v ≤ c)%Z)
  ∧ (∀ k, k ∈ delete_requests tr →
       k ∈ key <$> observed_versions tr
       ∧ ∀ v, v ∈ observed_versions tr → key v = k → (c < time_of v)%Z).
Proof.
  intros Hrun.
  destruct (recover_objects_inv _ _ _ _ _ _ _ _ _ _ _ _ Hrun)
    as [(e & tr1 & _ & _ & _ & Hc & Hd)
       |(lv & orphans & s1 & tr1 & Hgv & _ & Hl & Hc & Hd & _)].
  { rewrite Hc, Hd. split; [by intros b k k' vid ?%elem_of_nil|].
    by intros k ?%elem_of_nil. }
  rewrite Hc, Hd, (same_requests_same_records tr tr1 Hl).
  destruct (get_object_versions_spec _ _ _ _ _ _ _ _ Hgv) as (_ & _ & Hplan & _).
  pose proof (scan_NoDup c (observed_versions tr1)) as Hnd.
  pose proof (scan_orphans c (observed_versions tr1)) as Ho.
  pose proof (scan_entry_origin c (observed_versions tr1)) as Horigin.
  rewrite <- Hplan in Hnd, Ho, Horigin. simpl in Hnd, Ho, Horigin. split.
  - intros b k k' vid Hin.
    destruct (default false dry_run); [by apply elem_of_nil in Hin|].
    apply list_elem_of_fmap in Hin as ([k0 info] & [= -> -> -> ->] & Hitem).
    simpl. split_and!; [done..|].
    destruct (Horigin k0 info (dict_elem_get lv k0 info Hnd Hitem))
      as (u & Hu & Hku & Hcu & ->).
    by exists u.
  - intros k Hin.
    destruct (default false delete_newer && negb (default false dry_run));
      [|by apply elem_of_nil in Hin].
    apply elem_of_elements, Ho in Hin as [(u & Hu & <-) Hall].
    split; [|done]. apply list_elem_of_fmap. by exists u.
Qed.

(** X11. A dry run of [recover_objects], whatever its outcome, sends no
    [copy_object] and no [delete_object] request, and leaves the service in
    the state in which the listing left it: its only requests are those of
    [get_object_versions]. *)
Theorem dry_run_leaves_service_alone fuel bucket prefix c
    (dry_run delete_newer : option bool) s out s' tr :
  default false dry_run = true →
  recover_objects strftime isoformat fuel bucket prefix c
    dry_run delete_newer s = Some (out, s', tr) →
  copy_requests tr = [] ∧ delete_requests tr = []
  ∧ ∃ out1 tr1,
      get_object_versions fuel bucket prefix c s = Some (out1, s', tr1)
      ∧ list_requests tr = list_requests tr1.
Proof.
  intros Hdry Hrun.
  destruct (recover_objects_inv _ _ _ _ _ _ _ _ _ _ _ _ Hrun)
    as [(e & tr1 & Hgv & _ & Hl & Hc & Hd)
       |(lv & orphans & s1 & tr1 & Hgv & _ & Hl & Hc & Hd & Hs)].
  - split_and!; [done..|]. by exists (Raise e), tr1.
  - rewrite Hdry in Hc, Hd. rewrite andb_false_r in Hd.
    rewrite (Hs Hdry). split_and!; [done..|].
    by exists (Return (lv, orphans)), tr1.
Qed.
End RunProperties.

(** ** The script *)

Section ScriptProperties.
Context {E St Naive Auth : Type}.
Variable argparse_result : outcome (ProcExn E) Namespace.
Variable strptime : string → outcome (ProcExn E) Naive.
Variable replace_tzinfo_utc : Naive → Z.
Variable str_vars : Namespace → string.
Variable oss2_Auth : string → string → Auth.
Variable oss2_Bucket : Auth → string → string → Bucket E St.
Variables strftime isoformat : Z → string.
Implicit Types (st : Logging * St) (tr : list (Event (ProcExn E))).

(** [parse_recovery_time] only logs, and leaves the state alone. *)
Lemma parse_recovery_time_run (recovery_time_str : string) st :
  ∃ r t,
    parse_recovery_time (St:=St) strptime replace_tzinfo_utc
      recovery_time_str st = Some (r, st, t)
    ∧ Forall is_log t
    ∧ (strptime recovery_time_str = Raise ValueError →
       r = Raise (SystemExit 1)
       ∧ Log ERROR "Invalid recovery time format. Use UTC time in format: YYYY-MM-DDTHH:MM:SSZ" [] ∈ t).
Proof.
  unfold parse_recovery_time, try_except_class, library.
  rewrite bind_run.
  destruct (strptime recovery_time_str) as [dt|[code| |e]]; simpl.
  - eexists _, _. split; [done|]. split; [constructor | done].
  - eexists _, _. split; [done|]. split; [constructor | done].
  - eexists _, _. split; [done|]. split; [by repeat constructor|].
    intros _. split; [done | left].
  - eexists _, _. split; [done|]. split; [constructor | done].
Qed.

(** A run of [main] after the arguments are parsed: it stops before the
    bucket exists, having only logged, or it goes on as
    [recover_objects]. *)
Lemma main_inv fuel args st out st' tr :
  argparse_result = Return args →
  main argparse_result strptime replace_tzinfo_utc str_vars oss2_Auth
    oss2_Bucket strftime isoformat fuel st = Some (out, st', tr) →
  (Forall is_log tr ∧ st'.2 = st.2 ∧ ∃ e, out = Raise e)
  ∨ ∃ recovery_time st1 t0 tr_rec,
      Forall is_log t0 ∧ tr = t0 ++ tr_rec ∧ st1.2 = st.2
      ∧ recover_objects strftime isoformat fuel
          (process_bucket
             (initialize_oss_client oss2_Auth oss2_Bucket
                (arg_access_key_id args) (arg_access_key_secret args)
                (arg_endpoint args) (arg_bucket_name args)))
          (arg_folder_prefix args) recovery_time
          (Some (arg_dry_run args)) (Some (arg_delete_newer_objects args)) st1
        = Some (out, st', tr_rec).
Proof.
  intros Hargs. unfold main, parse_arguments, library.
  rewrite bind_run, Hargs. cbv zeta.
  rewrite bind_run. unfold basicConfig at 1.
  rewrite bind_run. unfold setLevel at 1.
  rewrite bind_run, log_run, bind_run.
  match goal with
  | |- context [parse_recovery_time _ _ ?str ?st0] =>
      destruct (parse_recovery_time_run str st0) as (r & t & -> & Hl & _);
      set (st1 := st0)
  end.
  destruct r as [recovery_time|e].
  - rewrite bind_run, log_run, bind_run, log_run.
    match goal with
    | |- context [recover_objects ?a ?b ?c ?d ?e ?f ?g ?h st1] =>
        destruct (recover_objects a b c d e f g h st1)
          as [[[out2 st2] t2]|] eqn:Hrec; [|done]
    end.
    intros [= <- <- <-]. right.
    exists recovery_time, st1.
    exists (Log DEBUG "Arguments parsed: %s" [AStr (str_vars args)]
            :: t ++
            [ Log DEBUG "Parsed recovery time: %s" [ATime recovery_time];
              Log DEBUG "OSS client initialized for bucket: %s"
                [AStr (arg_bucket_name args)] ]), t2.
    split_and!; [| |done|exact Hrec].
    + constructor; [done|].
      apply Forall_app. split; [exact Hl | by repeat constructor].
    + simpl. by rewrite <- app_assoc.
  - intros [= <- <- <-]. left. split_and!; [|done|by exists e].
    by repeat constructor.
Qed.


(** X13. The script honours its flags and its prefix, whatever the service
    answers: with [--dry-run] it sends no [copy_object] and no
    [delete_object] request, without [--delete-newer-objects] it sends no
    [delete_object] request, and every listing request is for
    [--folder-prefix], with [max_keys=999]. *)
Theorem main_honours_flags fuel args st out st' tr :
  argparse_result = Return args →
  main argparse_result strptime replace_tzinfo_utc str_vars oss2_Auth
    oss2_Bucket strftime isoformat fuel st = Some (out, st', tr) →
  (arg_dry_run args = true →
   copy_requests tr = [] ∧ delete_requests tr = [])
  ∧ (arg_delete_newer_objects args = false → delete_requests tr = [])
  ∧ Forall (request_under (arg_folder_prefix args)) (list_requests tr).
Proof.
  intros Hargs Hrun.
  destruct (main_inv _ _ _ _ _ _ Hargs Hrun)
    as [(Hl & _ & _)|(rt & st1 & t0 & tr_rec & Hl & -> & _ & Hrec)].
  { rewrite (logs_copy_requests tr Hl), (logs_delete_requests tr Hl),
      (logs_list_requests tr Hl). split_and!; [done..|constructor]. }
  rewrite copy_requests_app, delete_requests_app, list_requests_app,
    (logs_copy_requests t0 Hl), (logs_delete_requests t0 Hl),
    (logs_list_requests t0 Hl). simpl.
  destruct (recover_objects_inv _ _ _ _ _ _ _ _ _ _ _ _ Hrec)
    as [(e & tr1 & Hgv & _ & -> & -> & ->)
       |(lv & orphans & s1 & tr1 & Hgv & _ & -> & -> & -> & _)];
    apply get_object_versions_requests_under in Hgv; simpl.
  - split; [intros _; by split|]. split; [by intros _ | exact Hgv].
  - split; [intros ->; simpl; rewrite andb_false_r; by split|].
    split; [by intros -> | exact Hgv].
Qed.
End ScriptProperties.

(** ** The further properties on the test data *)

Lemma listing_is_read_only_witness :
  copy_requests test_trace = [] ∧ delete_requests test_trace = []
  ∧ Forall (request_under "prefix/") (list_requests test_trace).
Proof.
  apply (listing_is_read_only 1 (mock_bucket []) "prefix/" 1633620600
           [test_page]
           (Return (test_latest_versions, test_keys_without_older_versions))
           [] test_trace).
  vm_compute. reflexivity.
Defined.

Lemma planned_versions_are_genuine_witness :
  NoDup test_latest_versions.*1
  ∧ ∀ k info, (k, info) ∈ test_latest_versions →
      ∃ v, v ∈ observed_versions test_trace ∧ key v = k
           ∧ (time_of v ≤ 1633620600)%Z
           ∧ vi_versionid info = versionid v
           ∧ vi_version_time info = fromtimestamp (last_modified v)
           ∧ vi_last_modified_str info = last_modified v.
Proof.
  apply (planned_versions_are_genuine 1 (mock_bucket []) "prefix/" 1633620600
           [test_page] test_latest_versions test_keys_without_older_versions
           [] test_trace).
  vm_compute. reflexivity.
Defined.

Lemma classification_order_independent_witness :
  test_keys_without_older_versions = test_keys_without_older_versions
  ∧ ∀ k, is_Some (dict_get test_latest_versions_reversed k)
         ↔ is_Some (dict_get test_latest_versions k).
Proof.
  apply (classification_order_independent 1 (mock_bucket []) "prefix/"
           1633620600 [test_page] test_latest_versions
           test_keys_without_older_versions [] test_trace
           1 (mock_bucket []) "prefix/" [test_page_reversed]
           test_latest_versions_reversed test_keys_without_older_versions
           [] test_trace_reversed).
  - vm_compute. reflexivity.
  - vm_compute. reflexivity.
  - change (reverse (versions test_page) ≡ₚ versions test_page).
    apply reverse_Permutation.
Defined.

Lemma redelivery_is_harmless_witness :
  (two_pages_latest_versions, ({["b"]} : gset string))
  = (two_pages_latest_versions, {["b"]}).
Proof.
  apply (redelivery_is_harmless 1 (mock_bucket []) "p/" 10 [one_page]
           two_pages_latest_versions {["b"]} [] one_page_trace
           1 (mock_bucket []) "p/" [redelivered_page]
           two_pages_latest_versions {["b"]} [] redelivered_trace
           [] [mkObjectVersion "b" "v1" 30; mkObjectVersion "a" "v1" 5] []
           (mkObjectVersion "a" "v2" 20)).
  - vm_compute. reflexivity.
  - vm_compute. reflexivity.
  - vm_compute. reflexivity.
  - vm_compute. reflexivity.
Defined.

Lemma later_cutoff_restores_more_witness :
  test_keys_without_older_versions ⊆ test_keys_without_older_versions_1400
  ∧ ∀ k info, dict_get test_latest_versions_1400 k = Some info →
      ∃ info2, dict_get test_latest_versions k = Some info2
               ∧ (vi_version_time info ≤ vi_version_time info2)%Z.
Proof.
  apply (later_cutoff_restores_more 1 (mock_bucket []) "prefix/" 1633615200
           [test_page] test_latest_versions_1400
           test_keys_without_older_versions_1400 [] test_trace_1400
           1 (mock_bucket []) "prefix/" 1633620600 [test_page]
           test_latest_versions test_keys_without_older_versions
           [] test_trace).
  - vm_compute. reflexivity.
  - vm_compute. reflexivity.
  - reflexivity.
  - vm_compute. discriminate.
Defined.

Lemma cutoff_before_everything_witness :
  @nil (string * VersionInfo) = []
  ∧ ∀ k, k ∈ ({["object1"; "object2"; "object3"]} : gset string)
         ↔ k ∈ key <$> observed_versions test_trace_1300.
Proof.
  apply (cutoff_before_everything 1 (mock_bucket []) "prefix/" 1633611600
           [test_page] [] {["object1"; "object2"; "object3"]}
           [] test_trace_1300).
  - vm_compute. reflexivity.
  - apply Forall_forall.
    replace (observed_versions test_trace_1300) with (versions test_page)
      by (vm_compute; reflexivity).
    unfold test_page; cbn [versions].
    repeat first [apply Forall_nil_2 | apply Forall_cons_2; [reflexivity|]].
Defined.

Lemma cutoff_after_everything_witness :
  (∅ : gset string) = ∅
  ∧ ∀ k, k ∈ key <$> observed_versions test_trace_1700 →
         is_Some (dict_get test_latest_versions_1700 k).
Proof.
  apply (cutoff_after_everything 1 (mock_bucket []) "prefix/" 1633626000
           [test_page] test_latest_versions_1700 ∅ [] test_trace_1700).
  - vm_compute. reflexivity.
  - apply Forall_forall.
    replace (observed_versions test_trace_1700) with (versions test_page)
      by (vm_compute; reflexivity).
    unfold test_page; cbn [versions].
    repeat first [apply Forall_nil_2 | apply Forall_cons_2; [discriminate|]].
Defined.

Lemma page_boundaries_do_not_matter_witness :
  (two_pages_latest_versions, ({["b"]} : gset string))
  = (two_pages_latest_versions, {["b"]}).
Proof.
  apply (page_boundaries_do_not_matter 1 (mock_bucket []) "p/" 10 [one_page]
           two_pages_latest_versions {["b"]} [] one_page_trace
           2 (mock_bucket []) "p/" two_pages
           two_pages_latest_versions {["b"]} [] two_pages_trace).
  - vm_compute. reflexivity.
  - vm_compute. reflexivity.
  - vm_compute. reflexivity.
Defined.

Lemma full_recovery_acts_once_witness :
  NoDup (copied_keys full_recovery_trace ++ delete_requests full_recovery_trace)
  ∧ ∀ k, k ∈ copied_keys full_recovery_trace
               ++ delete_requests full_recovery_trace
         ↔ k ∈ key <$> observed_versions full_recovery_trace.
Proof.
  apply (full_recovery_acts_once mock_strftime mock_isoformat 1
           (mock_bucket []) "prefix/" 1633615200 (Some false) (Some true)
           [test_page] [] full_recovery_trace).
  - reflexivity.
  - reflexivity.
  - vm_compute. reflexivity.
Defined.

Lemma requests_are_justified_witness :
  (∀ b k k' vid, (b, k, k', vid) ∈ copy_requests full_recovery_trace →
     b = bucket_name (mock_bucket []) ∧ k' = k
     ∧ ∃ v, v ∈ observed_versions full_recovery_trace ∧ key v = k
            ∧ versionid v = vid ∧ (time_of v ≤ 1633615200)%Z)
  ∧ (∀ k, k ∈ delete_requests full_recovery_trace →
       k ∈ key <$> observed_versions full_recovery_trace
       ∧ ∀ v, v ∈ observed_versions full_recovery_trace → key v = k →
              (1633615200 < time_of v)%Z).
Proof.
  apply (requests_are_justified mock_strftime mock_isoformat 1
           (mock_bucket []) "prefix/" 1633615200 (Some false) (Some true)
           [test_page] (Return tt) [] full_recovery_trace).
  vm_compute. reflexivity.
Defined.

Lemma dry_run_leaves_service_alone_witness :
  copy_requests dry_recovery_trace = []
  ∧ delete_requests dry_recovery_trace = []
  ∧ ∃ out1 tr1,
      get_object_versions 1 (mock_bucket []) "prefix/" 1633615200 [test_page]
      = Some (out1, [], tr1)
      ∧ list_requests dry_recovery_trace = list_requests tr1.
Proof.
  apply (dry_run_leaves_service_alone mock_strftime mock_isoformat 1
           (mock_bucket []) "prefix/" 1633615200 (Some true) (Some true)
           [test_page] (Return tt) [] dry_recovery_trace).
  - reflexivity.
  - vm_compute. reflexivity.
Defined.


Lemma main_honours_flags_witness :
  (arg_dry_run (mock_args "2021-10-07T15:30:00Z") = true →
   copy_requests mock_main_trace = [] ∧ delete_requests mock_main_trace = [])
  ∧ (arg_delete_newer_objects (mock_args "2021-10-07T15:30:00Z") = false →
     delete_requests mock_main_trace = [])
  ∧ Forall (request_under (arg_folder_prefix (mock_args "2021-10-07T15:30:00Z")))
      (list_requests mock_main_trace).
Proof.
  apply (main_honours_flags
           (Return (mock_args "2021-10-07T15:30:00Z")) mock_strptime id
           (λ _, "args") (λ _ _, tt) (λ _ _ _, mock_bucket [])
           mock_strftime mock_isoformat 1 (mock_args "2021-10-07T15:30:00Z")
           (mkLogging None None, [test_page]) (Return tt)
           (mock_logging, []) mock_main_trace).
  - reflexivity.
  - vm_compute. reflexivity.
Defined.
